(** * ByteSmith: tool arbitration and state merge rules

    A shallow embedding of

    - [byte/domain/agent/reducers.py]: the reducers [replace_list] and
      [add_constraints];
    - [byte/domain/agent/nodes/tool_node.py]: [ToolNode.__call__], the loop
      that asks the operator about every requested tool call, runs the
      accepted ones, and aborts the whole batch on the first decline.

    Python values are modelled as follows.  The text that [json.dumps]
    escapes (string values and dict keys) is a [str], the list of its code
    points; names, ids, prompts and the texts the node builds are
    [string]s.  A JSON-serialisable value is a [JSON] tree, a float being
    carried as the text [json.dumps] writes for it; a [dict] is the list
    of its items in insertion order.  The operator and the tools are
    parameters of a run: the operator is a function from what the console
    has shown so far and the prompt to an answer, a tool a function from
    the events so far and its arguments to a result or an exception.
    Everything the node prints, asks and invokes is recorded, in order, in
    the trace of the run; what "the operator accepts, declines, keeps"
    means is read off that trace. *)

From Stdlib Require Import ZArith Ascii String DecimalString.
From stdpp Require Import base option list strings gmap.

Local Open Scope string_scope.
Local Open Scope list_scope.

(** ** JSON values and [json.dumps] *)

(** A Python [str], by its code points. *)
Definition str : Type := list N.

(** The [str] that a literal denotes. *)
Definition str_of (s : string) : str := map N_of_ascii (list_ascii_of_string s).

#[warnings="-register-all"] Inductive JSON : Type :=
| JNull
| JBool (b : bool)
| JInt (z : Z)
| JFloat (text : string)
| JStr (s : str)
| JList (items : list JSON)
| JDict (items : list (str * JSON)).

Module json.

Definition hex_digit (n : N) : ascii :=
  ascii_of_N (if (n <? 10)%N then 48 + n else 87 + n).

(** ['{0:04x}'.format(n)] for [n] below 65536. *)
Definition hex4 (n : N) : string :=
  String (hex_digit (n / 4096 mod 16)) (String (hex_digit (n / 256 mod 16))
    (String (hex_digit (n / 16 mod 16)) (String (hex_digit (n mod 16)) EmptyString))).

(** ['\\u{0:04x}'.format(n)] *)
Definition u_escape (n : N) : string :=
  String "\" (String "u" (hex4 n)).

(** [ESCAPE_DCT] of the encoder, then, for every character outside
    [' '..'~'], the [\uXXXX] escape, a surrogate pair from 65536 on. *)
Definition escape_char (n : N) : string :=
  if (n =? 92)%N then String "\" (String "\" EmptyString)
  else if (n =? 34)%N then String "\" (String (ascii_of_N 34) EmptyString)
  else if (n =? 8)%N then String "\" (String "b" EmptyString)
  else if (n =? 12)%N then String "\" (String "f" EmptyString)
  else if (n =? 10)%N then String "\" (String "n" EmptyString)
  else if (n =? 13)%N then String "\" (String "r" EmptyString)
  else if (n =? 9)%N then String "\" (String "t" EmptyString)
  else if ((32 <=? n) && (n <=? 126))%N then String (ascii_of_N n) EmptyString
  else if (n <? 65536)%N then u_escape n
  else
    let n := (n - 65536)%N in
    let s1 := N.lor 55296 (N.land (N.shiftr n 10) 1023) in
    let s2 := N.lor 56320 (N.land n 1023) in
    u_escape s1 +:+ u_escape s2.

Fixpoint escape (s : str) : string :=
  match s with
  | [] => EmptyString
  | c :: rest => escape_char c +:+ escape rest
  end.

Definition quote : string := String (ascii_of_N 34) EmptyString.

(** [encode_basestring_ascii] *)
Definition encode_str (s : str) : string := quote +:+ escape s +:+ quote.

Definition encode_int (z : Z) : string := NilZero.string_of_int (Z.to_int z).

(** [json.dumps] with its default separators [", "] and [": "]. *)
Fixpoint dumps (v : JSON) : string :=
  match v with
  | JNull => "null"
  | JBool true => "true"
  | JBool false => "false"
  | JInt z => encode_int z
  | JFloat text => text
  | JStr s => encode_str s
  | JList items =>
      "[" +:+
      (fix elements (l : list JSON) : string :=
         match l with
         | [] => ""
         | x :: rest =>
             match rest with
             | [] => dumps x
             | _ :: _ => dumps x +:+ ", " +:+ elements rest
             end
         end) items
      +:+ "]"
  | JDict items =>
      "{" +:+
      (fix members (l : list (str * JSON)) : string :=
         match l with
         | [] => ""
         | (k, x) :: rest =>
             match rest with
             | [] => encode_str k +:+ ": " +:+ dumps x
             | _ :: _ => encode_str k +:+ ": " +:+ dumps x +:+ ", " +:+ members rest
             end
         end) items
      +:+ "}"
  end.

End json.

(** ** Reducers ([reducers.py]) *)

(** A [left] that is [None] in Python is [None] here. *)
Definition replace_list {A : Type} (left : option (list A)) (right : list A) : list A :=
  right.

Definition add_constraints {A : Type} (left : option (list A)) (right : list A) : list A :=
  match left with
  | None => right
  | Some current => current ++ right
  end.

(** ** Messages, tools and commands *)

Record ConstraintSchema : Type := {
  type : string;
  description : string;
  source : string;
}.

(** A tool call is the dict [{"name": .., "args": .., "id": ..}]. *)
Record ToolCall : Type := {
  tc_name : string;
  tc_args : list (str * JSON);
  tc_id : string;
}.

Inductive Message : Type :=
| AIMessage (id : string) (content : string) (tool_calls : list ToolCall)
| HumanMessage (id : string) (content : string)
| ToolMessage (content : string) (name : string) (tool_call_id : string)
| RemoveMessage (id : string).

Inductive Exn : Type :=
| IndexError
| AttributeError (attribute : string)
| KeyError (key : string)
| TypeError
| ToolException (message : string).

Inductive Outcome (A : Type) : Type :=
| Returned (a : A)
| Raised (e : Exn).
Arguments Returned {A} a.
Arguments Raised {A} e.

Record State : Type := {
  messages : list Message;
  constraints : list ConstraintSchema;
}.

(** The [update] dict of a [Command]: the key ["messages"] is always there,
    the key ["constraints"] only on the decline path. *)
Record Update : Type := {
  upd_messages : list Message;
  upd_constraints : option (list ConstraintSchema);
}.

Record Command : Type := {
  goto : string;
  update : Update;
}.

(** ** What the node does to its collaborators *)

(** What the console can be given to print: [Pretty(tool_call)], or the
    markdown built from a text. *)
Inductive Renderable : Type :=
| Pretty (tool_call : ToolCall)
| MarkdownText (markup : str).

Inductive Event : Type :=
| Printed (panel : Renderable) (title : option string)
| Prompted (message : string) (default : bool) (answer : bool)
| Invoked (tool : string) (args : list (str * JSON)) (result : Outcome JSON).

Definition Trace : Type := list Event.

(** A tool of the catalog.  [ainvoke] returns a result or raises; what it
    does may depend on what the run has done so far (the second argument
    of [ainvoke] below is the [args] dict, the first the events before the
    invocation).  A result is a text, [JStr], or some other value, which
    is carried as a [JSON] tree: the node treats every result that is not
    a [str] in the same way. *)
Record Tool : Type := {
  tool_name : string;
  ainvoke : list Event → list (str * JSON) → Outcome JSON;
}.

Record AssistantContextSchema : Type := { tools : list Tool }.
Record Runtime : Type := { context : AssistantContextSchema }.

(** The operator answers a confirmation prompt knowing everything the
    console has shown so far. *)
Definition Operator : Type := Trace → string → bool → bool.

(** A computation reads the events so far and yields an outcome together
    with the events it adds. *)
Definition M (A : Type) : Type := Trace → Outcome A * Trace.

Definition ret {A} (a : A) : M A := λ _, (Returned a, []).

Definition raise {A} (e : Exn) : M A := λ _, (Raised e, []).

Definition bind {A B} (m : M A) (k : A → M B) : M B := λ h,
  match m h with
  | (Returned a, evs) => let '(o, evs') := k a (h ++ evs) in (o, evs ++ evs')
  | (Raised e, evs) => (Raised e, evs)
  end.

Notation "'let*' x ':=' m 'in' k" := (bind m (λ x, k))
  (at level 10, x name, m at level 100, k at level 200).
Notation "m ';;' k" := (bind m (λ _, k))
  (at level 100, k at level 200, right associativity).

Definition print_panel (panel : Renderable) (title : option string) : M unit :=
  λ _, (Returned tt, [Printed panel title]).

Definition prompt_for_confirmation (operator : Operator)
    (message : string) (default : bool) : M bool := λ h,
  let answer := operator h message default in
  (Returned answer, [Prompted message default answer]).

Definition tool_ainvoke (tool : Tool) (args : list (str * JSON)) : M JSON := λ h,
  let result := ainvoke tool h args in
  (result, [Invoked (tool_name tool) args result]).

(** [d[key]] on a dict *)
Definition getitem (d : gmap string Tool) (key : string) : M Tool :=
  match d !! key with
  | Some tool => ret tool
  | None => raise (KeyError key)
  end.

(** Modelled from the spec: [Markdown] of [byte.domain.cli.rich.markdown]
    is not among the sources; by section 4.1 the raw result is rendered to
    the operator.  The renderable is rich's markdown: its constructor
    parses the markup it is given, and the parser takes a [str] only, so
    building it from any other value raises [TypeError] ("Input data
    should be a string"). *)
Definition Markdown (markup : JSON) : M Renderable :=
  match markup with
  | JStr s => ret (MarkdownText s)
  | _ => raise TypeError
  end.

(** Modelled from the spec: [get_last_message] of [byte.core.utils] is not
    among the sources; by section 3 the message under arbitration is "the
    most recent one in the state's message sequence".  An empty sequence
    has none, which is an error here. *)
Definition get_last_message (messages : list Message) : M Message :=
  match last messages with
  | Some message => ret message
  | None => raise IndexError
  end.

(** [message.tool_calls] and [message.id] *)
Definition tool_calls_of (message : Message) : M (list ToolCall) :=
  match message with
  | AIMessage _ _ tool_calls => ret tool_calls
  | _ => raise (AttributeError "tool_calls")
  end.

(** The node builds its [ToolMessage]s without an id. *)
Definition id_of (message : Message) : string :=
  match message with
  | AIMessage id _ _ | HumanMessage id _ | RemoveMessage id => id
  | ToolMessage _ _ _ => ""
  end.

Module ToolNode.

Definition use_prompt (tool_call : ToolCall) : string :=
  "Use " +:+ tc_name tool_call.

Definition review_prompt : string := "Add this result to the response?".

Definition declined_result : JSON :=
  JDict [(str_of "result", JStr (str_of "User declined tool call."))].

Definition discarded_result : JSON :=
  JDict [(str_of "result",
          JStr (str_of "User did not find the results useful for the task."))].

Definition declined_constraint (tool_call : ToolCall) : ConstraintSchema :=
  {| type := "avoid";
     description :=
       "Do not use " +:+ tc_name tool_call +:+ " with arguments: "
         +:+ json.dumps (JDict (tc_args tool_call));
     source := "declined_tool" |}.

(** [{tool.name: tool for tool in tools}]: a later tool replaces an
    earlier one of the same name. *)
Definition tools_by_name (tools : list Tool) : gmap string Tool :=
  foldl (λ d tool, <[tool_name tool := tool]> d) ∅ tools.

(** The [for tool_call in message.tool_calls] loop, with the
    accumulator [outputs]; a [return] inside the body ends it. *)
Fixpoint for_tool_calls (operator : Operator) (by_name : gmap string Tool)
    (message : Message) (tool_calls : list ToolCall) (outputs : list Message)
    : M Command :=
  match tool_calls with
  | [] =>
      ret {| goto := "assistant_node";
             update := {| upd_messages := outputs; upd_constraints := None |} |}
  | tool_call :: rest =>
      (* [self.make(ConsoleService)] only fetches the console *)
      print_panel (Pretty tool_call) None ;;
      let* run_tool := prompt_for_confirmation operator (use_prompt tool_call) true in
      if run_tool : bool then
        let* tool := getitem by_name (tc_name tool_call) in
        let* tool_result := tool_ainvoke tool (tc_args tool_call) in
        let* result_pretty := Markdown tool_result in
        print_panel result_pretty (Some "Tool Result") ;;
        let* add_result := prompt_for_confirmation operator review_prompt true in
        let tool_result := if add_result : bool then tool_result else discarded_result in
        for_tool_calls operator by_name message rest
          (outputs ++ [ToolMessage (json.dumps tool_result)
                         (tc_name tool_call) (tc_id tool_call)])
      else
        let tool_result := declined_result in
        let constraint := declined_constraint tool_call in
        ret {| goto := "assistant_node";
               update := {| upd_messages := [RemoveMessage (id_of message)];
                            upd_constraints := Some [constraint] |} |}
  end.

Definition __call__ (operator : Operator) (state : State) (runtime : Runtime)
    : M Command :=
  let* message := get_last_message (messages state) in
  let outputs := [] in
  let tools := tools (context runtime) in
  match tools with
  | [] =>
      ret {| goto := "assistant_node";
             update := {| upd_messages := []; upd_constraints := None |} |}
  | _ :: _ =>
      let by_name := tools_by_name tools in
      let* tool_calls := tool_calls_of message in
      for_tool_calls operator by_name message tool_calls outputs
  end.

(** One invocation of the node, from an empty console. *)
Definition run (operator : Operator) (state : State) (runtime : Runtime)
    : Outcome Command * Trace :=
  __call__ operator state runtime [].

End ToolNode.

(** ** Reading a trace *)

(** The answers to the "Use <tool>" prompts, in order. *)
Definition use_answers (tr : Trace) : list bool :=
  omap (λ e, match e with
             | Prompted message _ answer =>
                 if String.prefix "Use " message then Some answer else None
             | _ => None
             end) tr.

(** The answers to the "Add this result to the response?" prompts. *)
Definition review_answers (tr : Trace) : list bool :=
  omap (λ e, match e with
             | Prompted message _ answer =>
                 if String.eqb message ToolNode.review_prompt then Some answer else None
             | _ => None
             end) tr.

(** Every [ainvoke] of the run: tool, arguments, and what came back. *)
Definition invocations (tr : Trace) : list (string * list (str * JSON) * Outcome JSON) :=
  omap (λ e, match e with
             | Invoked tool args result => Some (tool, args, result)
             | _ => None
             end) tr.

Definition is_ToolMessage (m : Message) : bool :=
  match m with ToolMessage _ _ _ => true | _ => false end.

(** The [ToolMessage] entries of a state patch. *)
Definition tool_results (u : Update) : list Message :=
  List.filter is_ToolMessage (upd_messages u).

(** The constraint entries of a state patch. *)
Definition constraint_entries (u : Update) : list ConstraintSchema :=
  default [] (upd_constraints u).

(** ** The shape of a run of the loop *)

(** A call that went through a whole iteration: accepted, invoked with
    the text [p_result] as result, reviewed with answer [p_keep]. *)
Record Processed : Type := {
  p_call : ToolCall;
  p_result : str;
  p_keep : bool;
}.

Definition processed_events (p : Processed) : Trace :=
  [ Printed (Pretty (p_call p)) None;
    Prompted (ToolNode.use_prompt (p_call p)) true true;
    Invoked (tc_name (p_call p)) (tc_args (p_call p)) (Returned (JStr (p_result p)));
    Printed (MarkdownText (p_result p)) (Some "Tool Result");
    Prompted ToolNode.review_prompt true (p_keep p) ].

Definition output_of (p : Processed) : Message :=
  ToolMessage
    (json.dumps (if p_keep p then JStr (p_result p) else ToolNode.discarded_result))
    (tc_name (p_call p)) (tc_id (p_call p)).

(** How the loop ends: past the last call, at a declined call, at a call
    whose tool is not in the catalog, at a call whose tool raised, or at a
    call whose tool returned something that is not a text. *)
Inductive Ending : Type :=
| Completed
| Declined (c : ToolCall)
| Missing (c : ToolCall)
| Failed (c : ToolCall) (e : Exn)
| Unrenderable (c : ToolCall) (v : JSON).

Definition pending (ending : Ending) : list ToolCall :=
  match ending with
  | Completed => []
  | Declined c | Missing c | Failed c _ | Unrenderable c _ => [c]
  end.

Definition ending_events (ending : Ending) : Trace :=
  match ending with
  | Completed => []
  | Declined c =>
      [Printed (Pretty c) None; Prompted (ToolNode.use_prompt c) true false]
  | Missing c =>
      [Printed (Pretty c) None; Prompted (ToolNode.use_prompt c) true true]
  | Failed c e =>
      [Printed (Pretty c) None; Prompted (ToolNode.use_prompt c) true true;
       Invoked (tc_name c) (tc_args c) (Raised e)]
  | Unrenderable c v =>
      [Printed (Pretty c) None; Prompted (ToolNode.use_prompt c) true true;
       Invoked (tc_name c) (tc_args c) (Returned v)]
  end.

Definition ending_outcome (message : Message) (outputs : list Message)
    (ending : Ending) : Outcome Command :=
  match ending with
  | Completed =>
      Returned {| goto := "assistant_node";
                  update := {| upd_messages := outputs; upd_constraints := None |} |}
  | Declined c =>
      Returned {| goto := "assistant_node";
                  update := {| upd_messages := [RemoveMessage (id_of message)];
                               upd_constraints := Some [ToolNode.declined_constraint c] |} |}
  | Missing c => Raised (KeyError (tc_name c))
  | Failed _ e => Raised e
  | Unrenderable _ _ => Raised TypeError
  end.

(** The command of the empty-catalog guard. *)
Definition pass_through : Command :=
  {| goto := "assistant_node";
     update := {| upd_messages := []; upd_constraints := None |} |}.

(** A dict built by [tools_by_name] files every tool under its own name. *)
Definition well_keyed (d : gmap string Tool) : Prop :=
  ∀ key tool, d !! key = Some tool → tool_name tool = key.

(** ** Why a run has the shape it has *)

(** What the operator and the catalog did at the call where the loop
    ended, [h] being the events before that call. *)
Definition ending_explained (operator : Operator) (by_name : gmap string Tool)
    (h : Trace) (ending : Ending) : Prop :=
  match ending with
  | Completed => True
  | Declined c =>
      operator (h ++ [Printed (Pretty c) None]) (ToolNode.use_prompt c) true = false
  | Missing c =>
      operator (h ++ [Printed (Pretty c) None]) (ToolNode.use_prompt c) true = true ∧
      by_name !! tc_name c = None
  | Failed c e =>
      operator (h ++ [Printed (Pretty c) None]) (ToolNode.use_prompt c) true = true ∧
      ∃ tool,
        by_name !! tc_name c = Some tool ∧
        ainvoke tool
          (h ++ [Printed (Pretty c) None; Prompted (ToolNode.use_prompt c) true true])
          (tc_args c) = Raised e
  | Unrenderable c v =>
      operator (h ++ [Printed (Pretty c) None]) (ToolNode.use_prompt c) true = true ∧
      (∀ s, v ≠ JStr s) ∧
      ∃ tool,
        by_name !! tc_name c = Some tool ∧
        ainvoke tool
          (h ++ [Printed (Pretty c) None; Prompted (ToolNode.use_prompt c) true true])
          (tc_args c) = Returned v
  end.

(** What the operator and the catalog did at every processed call: the
    operator accepted it, the dict had a tool under its name, that tool
    returned the text [p_result], and the operator answered [p_keep] at
    review. *)
Fixpoint explained (operator : Operator) (by_name : gmap string Tool)
    (h : Trace) (done : list Processed) (ending : Ending) : Prop :=
  match done with
  | [] => ending_explained operator by_name h ending
  | p :: done' =>
      let c := p_call p in
      operator (h ++ [Printed (Pretty c) None]) (ToolNode.use_prompt c) true = true ∧
      (∃ tool,
         by_name !! tc_name c = Some tool ∧
         ainvoke tool
           (h ++ [Printed (Pretty c) None; Prompted (ToolNode.use_prompt c) true true])
           (tc_args c) = Returned (JStr (p_result p))) ∧
      operator
        (h ++ [Printed (Pretty c) None; Prompted (ToolNode.use_prompt c) true true;
               Invoked (tc_name c) (tc_args c) (Returned (JStr (p_result p)));
               Printed (MarkdownText (p_result p)) (Some "Tool Result")])
        ToolNode.review_prompt true = p_keep p ∧
      explained operator by_name (h ++ processed_events p) done' ending
  end.

(** Every character lies in [' '..'~']. *)
Definition printable_char (c : ascii) : bool :=
  ((32 <=? N_of_ascii c) && (N_of_ascii c <=? 126))%N.

Fixpoint printable (s : string) : bool :=
  match s with
  | EmptyString => true
  | String c rest => printable_char c && printable rest
  end.

(** ** A worked batch

    The scenario of the specification: the assistant asks for [search]
    and then [edit]. *)
Module Examples.

Definition search : Tool :=
  {| tool_name := "search"; ainvoke := λ _ _, Returned (JStr (str_of "3 matches")) |}.

Definition edit : Tool :=
  {| tool_name := "edit"; ainvoke := λ _ _, Returned (JStr (str_of "edited a.py")) |}.

(** A [search] whose backend is down. *)
Definition broken_search : Tool :=
  {| tool_name := "search"; ainvoke := λ _ _, Raised (ToolException "timeout") |}.

Definition call_1 : ToolCall :=
  {| tc_name := "search"; tc_args := [(str_of "q", JStr (str_of "x"))]; tc_id := "1" |}.

Definition call_2 : ToolCall :=
  {| tc_name := "edit"; tc_args := [(str_of "path", JStr (str_of "a.py"))]; tc_id := "2" |}.

Definition state : State :=
  {| messages := [HumanMessage "h1" "rename x"; AIMessage "a1" "" [call_1; call_2]];
     constraints := [] |}.

Definition idle_state : State :=
  {| messages := [HumanMessage "h1" "hello"; AIMessage "a1" "hi" []];
     constraints := [] |}.

Definition runtime : Runtime := {| context := {| tools := [search; edit] |} |}.

Definition broken_runtime : Runtime :=
  {| context := {| tools := [broken_search; edit] |} |}.

Definition no_tools : Runtime := {| context := {| tools := [] |} |}.

(** Operators: one takes every default, one declines [edit], one
    accepts every call but keeps no result. *)
Definition takes_defaults : Operator := λ _ _ default, default.

Definition declines_edit : Operator :=
  λ _ message _, negb (String.eqb message "Use edit").

Definition keeps_nothing : Operator :=
  λ _ message _, negb (String.eqb message ToolNode.review_prompt).

End Examples.

(** ** More batches *)
Module Cases.

(** A call to a tool that the catalog does not have. *)
Definition call_3 : ToolCall :=
  {| tc_name := "deploy"; tc_args := []; tc_id := "3" |}.

Definition deploy_state : State :=
  {| messages := [HumanMessage "h1" "ship it"; AIMessage "a2" "" [Examples.call_1; call_3]];
     constraints := [] |}.

(** The latest message is the user's, not the assistant's. *)
Definition human_state : State :=
  {| messages := [AIMessage "a1" "" [Examples.call_1]; HumanMessage "h2" "wait"];
     constraints := [] |}.

(** Two tools under the name [search]: the working one comes later. *)
Definition shadowing_runtime : Runtime :=
  {| context := {| tools := [Examples.broken_search; Examples.edit; Examples.search] |} |}.

(** An [edit] that answers with a flag, not with a text. *)
Definition flag_edit : Tool :=
  {| tool_name := "edit"; ainvoke := λ _ _, Returned (JBool true) |}.

(** A [search] that reports its failure as a dict. *)
Definition failing_search : Tool :=
  {| tool_name := "search";
     ainvoke := λ _ _, Returned (JDict [(str_of "error", JStr (str_of "timeout"))]) |}.

(** A [search] whose answer holds characters outside ASCII: an emoticon
    beyond the basic plane, an accented letter, a line feed. *)
Definition unicode_search : Tool :=
  {| tool_name := "search";
     ainvoke := λ _ _, Returned (JStr [128512; 233; 10; 126]%N) |}.

Definition unicode_runtime : Runtime :=
  {| context := {| tools := [unicode_search; Examples.edit] |} |}.

Definition flag_runtime : Runtime :=
  {| context := {| tools := [Examples.search; flag_edit] |} |}.

Definition failing_runtime : Runtime :=
  {| context := {| tools := [failing_search; Examples.edit] |} |}.

(** An operator who keeps the result of [search] only: answers depend on
    what the console showed last. *)
Definition keeps_matches : Operator :=
  λ h message _,
    negb (String.eqb message ToolNode.review_prompt) ||
    match last h with
    | Some (Printed (MarkdownText s) _) => bool_decide (s = str_of "3 matches")
    | _ => false
    end.

Definition earlier_constraint : ConstraintSchema :=
  {| type := "avoid"; description := "Do not touch the lock file"; source := "user" |}.

Definition constrained_state : State :=
  {| messages := messages Examples.state; constraints := [earlier_constraint] |}.

(** The same [edit] call under another id, and two [edit] calls whose
    argument dicts hold the same items in two orders. *)
Definition call_2_again : ToolCall :=
  {| tc_name := "edit"; tc_args := [(str_of "path", JStr (str_of "a.py"))]; tc_id := "7" |}.

Definition again_state : State :=
  {| messages := [AIMessage "a3" "" [call_2_again]]; constraints := [] |}.

Definition call_ab : ToolCall :=
  {| tc_name := "edit";
     tc_args := [(str_of "a", JInt 1); (str_of "b", JInt 2)]; tc_id := "4" |}.

Definition call_ba : ToolCall :=
  {| tc_name := "edit";
     tc_args := [(str_of "b", JInt 2); (str_of "a", JInt 1)]; tc_id := "5" |}.

Definition ab_state : State :=
  {| messages := [AIMessage "a4" "" [call_ab]]; constraints := [] |}.

Definition ba_state : State :=
  {| messages := [AIMessage "a5" "" [call_ba]]; constraints := [] |}.

End Cases.

Lemma well_keyed_insert d tool :
  well_keyed d → well_keyed (<[tool_name tool := tool]> d).
Proof.
  intros Hd key tool'. rewrite lookup_insert.
  case_decide as Hk; [intros [= <-]; exact Hk | apply Hd].
Qed.

Lemma tools_by_name_well_keyed tools : well_keyed (ToolNode.tools_by_name tools).
Proof.
  unfold ToolNode.tools_by_name.
  assert (Hgen : ∀ d, well_keyed d →
            well_keyed (foldl (λ d tool, <[tool_name tool := tool]> d) d tools)).
  { induction tools as [|t tools IH]; intros d Hd; [exact Hd |].
    simpl. apply IH, well_keyed_insert, Hd. }
  apply Hgen. intros key tool. rewrite lookup_empty. discriminate.
Qed.

Lemma for_tool_calls_explained operator by_name message :
  well_keyed by_name →
  ∀ tool_calls outputs h,
  ∃ done ending rest,
    tool_calls = map p_call done ++ pending ending ++ rest ∧
    (ending = Completed → rest = []) ∧
    ToolNode.for_tool_calls operator by_name message tool_calls outputs h =
      (ending_outcome message (outputs ++ map output_of done) ending,
       flat_map processed_events done ++ ending_events ending) ∧
    explained operator by_name h done ending.
Proof.
  intros Hkeys tool_calls.
  induction tool_calls as [|c calls IH]; intros outputs h.
  - exists [], Completed, []. simpl. rewrite app_nil_r. auto.
  - cbn [ToolNode.for_tool_calls]. unfold bind at 1. cbn [print_panel].
    unfold bind at 1. unfold prompt_for_confirmation at 1.
    destruct (operator (h ++ [Printed (Pretty c) None]) (ToolNode.use_prompt c) true)
      eqn:Hrun_tool.
    + unfold bind at 1, getitem.
      destruct (by_name !! tc_name c) as [tool|] eqn:Htool.
      * pose proof (Hkeys _ _ Htool) as Hname. cbn [ret]. unfold bind at 1, tool_ainvoke.
        rewrite Hname.
        destruct (ainvoke tool _ (tc_args c)) as [v|e] eqn:Hres.
        -- rewrite !app_nil_r, <- !(assoc_L (++)) in *. cbn [app] in *.
           unfold bind at 1.
           destruct (Markdown v _) as [[panel|e] evs] eqn:Hpanel.
           ++ assert (Hv : ∃ s, v = JStr s ∧ panel = MarkdownText s ∧ evs = []).
              { destruct v; try discriminate Hpanel.
                injection Hpanel as <- <-. by eexists. }
              destruct Hv as (s & -> & -> & ->).
              unfold bind at 1. cbn [print_panel].
              unfold bind at 1, prompt_for_confirmation.
              rewrite !app_nil_r, <- !(assoc_L (++)) in *. cbn [app] in *.
              match goal with
              | |- context [ToolNode.for_tool_calls _ _ _ calls ?o ?h'] =>
                  destruct (IH o h')
                    as (done & ending & rest & Hcalls & Hcompl & Hrun & Hwhy);
                  rewrite Hrun
              end.
              match goal with
              | |- context [Prompted ToolNode.review_prompt true ?a] =>
                  exists ({| p_call := c; p_result := s; p_keep := a |} :: done),
                    ending, rest
              end.
              split; [simpl; by rewrite Hcalls |]. split; [exact Hcompl |].
              split.
              ** cbn [map flat_map processed_events output_of p_call p_result p_keep].
                 rewrite <- (assoc_L (++) outputs). reflexivity.
              ** cbn [explained p_call p_result p_keep]. split_and!; try done.
                 by exists tool.
           ++ assert (Hv : (∀ s, v ≠ JStr s) ∧ e = TypeError ∧ evs = []).
              { destruct v; try discriminate Hpanel;
                  injection Hpanel as <- <-; by split_and!. }
              destruct Hv as (Hv & -> & ->).
              exists [], (Unrenderable c v), calls. simpl. split_and!; try done.
              by exists tool.
        -- rewrite !app_nil_r, <- !(assoc_L (++)) in *. cbn [app] in *.
           exists [], (Failed c e), calls. simpl. split_and!; try done.
           by exists tool.
      * exists [], (Missing c), calls. simpl. by split_and!.
    + exists [], (Declined c), calls. simpl. by split_and!.
Qed.

(** ** Views of a decomposed trace *)

Lemma use_answers_app tr1 tr2 :
  use_answers (tr1 ++ tr2) = use_answers tr1 ++ use_answers tr2.
Proof. apply omap_app. Qed.

Lemma review_answers_app tr1 tr2 :
  review_answers (tr1 ++ tr2) = review_answers tr1 ++ review_answers tr2.
Proof. apply omap_app. Qed.

Lemma invocations_app tr1 tr2 :
  invocations (tr1 ++ tr2) = invocations tr1 ++ invocations tr2.
Proof. apply omap_app. Qed.

Lemma use_answers_processed done :
  use_answers (flat_map processed_events done) = replicate (length done) true.
Proof.
  induction done as [|p done IH]; [reflexivity |].
  cbn [flat_map]. rewrite use_answers_app, IH. simpl.
  by destruct (tc_name (p_call p)).
Qed.

Lemma review_answers_processed done :
  review_answers (flat_map processed_events done) = map p_keep done.
Proof.
  induction done as [|p done IH]; [reflexivity |].
  cbn [flat_map]. rewrite review_answers_app, IH. reflexivity.
Qed.

Lemma invocations_processed done :
  invocations (flat_map processed_events done) =
  map (λ p, (tc_name (p_call p), tc_args (p_call p), Returned (JStr (p_result p)))) done.
Proof.
  induction done as [|p done IH]; [reflexivity |].
  cbn [flat_map]. rewrite invocations_app, IH. reflexivity.
Qed.

Lemma use_answers_ending ending :
  use_answers (ending_events ending) =
  match ending with
  | Completed => []
  | Declined _ => [false]
  | Missing _ | Failed _ _ | Unrenderable _ _ => [true]
  end.
Proof.
  destruct ending as [|c|c|c e|c v]; try reflexivity; simpl; by destruct (tc_name c).
Qed.

Lemma review_answers_ending ending : review_answers (ending_events ending) = [].
Proof. destruct ending; reflexivity. Qed.

Lemma invocations_ending ending :
  invocations (ending_events ending) =
  match ending with
  | Failed c e => [(tc_name c, tc_args c, Raised e)]
  | Unrenderable c v => [(tc_name c, tc_args c, Returned v)]
  | _ => []
  end.
Proof. destruct ending; reflexivity. Qed.

(** ** The shape of an invocation of the node *)

Lemma run_empty_catalog operator state runtime message :
  last (messages state) = Some message →
  tools (context runtime) = [] →
  ToolNode.run operator state runtime = (Returned pass_through, []).
Proof.
  intros Hlast Htools.
  unfold ToolNode.run, ToolNode.__call__, bind, get_last_message.
  rewrite Hlast, Htools. reflexivity.
Qed.

Lemma run_explained operator state runtime id content tool_calls :
  last (messages state) = Some (AIMessage id content tool_calls) →
  tools (context runtime) ≠ [] →
  ∃ done ending rest,
    tool_calls = map p_call done ++ pending ending ++ rest ∧
    (ending = Completed → rest = []) ∧
    ToolNode.run operator state runtime =
      (ending_outcome (AIMessage id content tool_calls) (map output_of done) ending,
       flat_map processed_events done ++ ending_events ending) ∧
    explained operator (ToolNode.tools_by_name (tools (context runtime))) [] done ending.
Proof.
  intros Hlast Htools.
  unfold ToolNode.run, ToolNode.__call__, bind at 1, get_last_message.
  rewrite Hlast. cbn [ret].
  destruct (tools (context runtime)) as [|t ts] eqn:Hts; [done |].
  unfold bind at 1. cbn [tool_calls_of ret].
  destruct (for_tool_calls_explained operator (ToolNode.tools_by_name (t :: ts))
              (AIMessage id content tool_calls)
              (tools_by_name_well_keyed (t :: ts)) tool_calls [] (([] ++ []) ++ []))
    as (done & ending & rest & Hcalls & Hcompl & Hrun & Hwhy).
  exists done, ending, rest. split; [exact Hcalls |]. split; [exact Hcompl |].
  rewrite Hrun. split; [reflexivity | exact Hwhy].
Qed.

Lemma run_shape operator state runtime id content tool_calls :
  last (messages state) = Some (AIMessage id content tool_calls) →
  tools (context runtime) ≠ [] →
  ∃ done ending rest,
    tool_calls = map p_call done ++ pending ending ++ rest ∧
    (ending = Completed → rest = []) ∧
    ToolNode.run operator state runtime =
      (ending_outcome (AIMessage id content tool_calls) (map output_of done) ending,
       flat_map processed_events done ++ ending_events ending).
Proof.
  intros Hlast Htools.
  destruct (run_explained operator _ _ _ _ _ Hlast Htools)
    as (done & ending & rest & Hcalls & Hcompl & Hrun & _).
  by exists done, ending, rest.
Qed.

Lemma run_not_assistant operator state runtime message :
  last (messages state) = Some message →
  (∀ id content tool_calls, message ≠ AIMessage id content tool_calls) →
  tools (context runtime) ≠ [] →
  ToolNode.run operator state runtime = (Raised (AttributeError "tool_calls"), []).
Proof.
  intros Hlast Hnot Htools.
  unfold ToolNode.run, ToolNode.__call__, bind, get_last_message.
  rewrite Hlast. cbn [ret].
  destruct (tools (context runtime)) as [|t ts]; [done |].
  destruct message as [id content tool_calls| | |]; try reflexivity.
  by destruct (Hnot id content tool_calls).
Qed.

Lemma run_no_message operator state runtime :
  last (messages state) = None →
  ToolNode.run operator state runtime = (Raised IndexError, []).
Proof.
  intros Hlast. unfold ToolNode.run, ToolNode.__call__, bind, get_last_message.
  by rewrite Hlast.
Qed.

(** ** The encoder and the worked batch, evaluated *)

Example dumps_nested :
  json.dumps (JDict [(str_of "n", JInt (-12));
                     (str_of "l", JList [JNull; JBool true; JStr (str_of "a\b")])]) =
    "{" +:+ json.quote +:+ "n" +:+ json.quote +:+ ": -12, "
      +:+ json.quote +:+ "l" +:+ json.quote +:+ ": [null, true, "
      +:+ json.quote +:+ "a\\b" +:+ json.quote +:+ "]}".
Proof. reflexivity. Qed.

(** U+1F600 becomes a surrogate pair, U+00E9 and a line feed their
    escapes. *)
Example dumps_escapes :
  json.dumps (JStr [128512; 233; 10; 126]%N) =
    json.quote +:+ "\ud83d\ude00\u00e9\n~" +:+ json.quote.
Proof. reflexivity. Qed.

(** The scenario of section 8: the first call is accepted and its result
    kept, the second is declined. *)
Example scenario_second_call_declined :
  ToolNode.run Examples.declines_edit Examples.state Examples.runtime =
    (Returned
       {| goto := "assistant_node";
          update :=
            {| upd_messages := [RemoveMessage "a1"];
               upd_constraints := Some [ToolNode.declined_constraint Examples.call_2] |} |},
     [ Printed (Pretty Examples.call_1) None;
       Prompted "Use search" true true;
       Invoked "search" [(str_of "q", JStr (str_of "x"))]
         (Returned (JStr (str_of "3 matches")));
       Printed (MarkdownText (str_of "3 matches")) (Some "Tool Result");
       Prompted "Add this result to the response?" true true;
       Printed (Pretty Examples.call_2) None;
       Prompted "Use edit" true false ]).
Proof. vm_compute. reflexivity. Qed.

(** A tool that answers with a flag: building the result panel raises. *)
Example scenario_result_is_no_text :
  ToolNode.run Examples.takes_defaults Examples.state Cases.flag_runtime =
    (Raised TypeError,
     [ Printed (Pretty Examples.call_1) None;
       Prompted "Use search" true true;
       Invoked "search" [(str_of "q", JStr (str_of "x"))]
         (Returned (JStr (str_of "3 matches")));
       Printed (MarkdownText (str_of "3 matches")) (Some "Tool Result");
       Prompted "Add this result to the response?" true true;
       Printed (Pretty Examples.call_2) None;
       Prompted "Use edit" true true;
       Invoked "edit" [(str_of "path", JStr (str_of "a.py"))] (Returned (JBool true)) ]).
Proof. vm_compute. reflexivity. Qed.

(** ** The merge rules *)

(** C7. The accumulate rule appends: [add_constraints current incoming] is
    [current ++ incoming], an uninitialised ([None]) [current] counting as
    empty; with [current] empty or [None] the result is [incoming]; and
    merging [Y] then [Z] is merging [Y ++ Z]. *)
Theorem add_constraints_appends :
  (∀ (A : Type) (current : option (list A)) (incoming : list A),
     add_constraints current incoming = default [] current ++ incoming) ∧
  (∀ (A : Type) (incoming : list A),
     add_constraints None incoming = incoming ∧
     add_constraints (Some []) incoming = incoming) ∧
  (∀ (A : Type) (X : option (list A)) (Y Z : list A),
     add_constraints (Some (add_constraints X Y)) Z = add_constraints X (Y ++ Z)).
Proof.
  split_and!.
  - intros A [current|] incoming; reflexivity.
  - intros A incoming. split; reflexivity.
  - intros A [X|] Y Z; simpl; [symmetry; apply (assoc_L (++)) | reflexivity].
Qed.

(** C8. The replace rule returns the incoming value whatever the current
    one is, so applying it again with the same incoming [Y] yields [Y]
    both times. *)
Theorem replace_list_takes_incoming :
  (∀ (A : Type) (current : option (list A)) (incoming : list A),
     replace_list current incoming = incoming) ∧
  (∀ (A : Type) (X : option (list A)) (Y : list A),
     replace_list X Y = Y ∧ replace_list (Some (replace_list X Y)) Y = Y).
Proof. split; intros; [| split]; reflexivity. Qed.

(** C9. With a current list that is not [None], the merged constraints
    start with the current ones, in their order, and end with the incoming
    ones: nothing is dropped, reordered or lost. *)
Theorem add_constraints_append_only :
  ∀ (A : Type) (current incoming : list A),
    current `prefix_of` add_constraints (Some current) incoming ∧
    take (length current) (add_constraints (Some current) incoming) = current ∧
    drop (length current) (add_constraints (Some current) incoming) = incoming ∧
    length (add_constraints (Some current) incoming) = length current + length incoming.
Proof.
  intros A current incoming. cbn [add_constraints]. split_and!.
  - by apply prefix_app_r.
  - apply take_app_length.
  - apply drop_app_length.
  - apply length_app.
Qed.

(** ** The guards of the node *)

(** C4. With an empty tool catalog the node returns at once: destination
    [assistant_node], a patch with no message and no constraint, and an
    empty trace, so no tool was invoked and the operator was never
    prompted.  This holds whatever the message under arbitration asks for. *)
Theorem empty_catalog_passes_through operator state runtime message :
  last (messages state) = Some message →
  tools (context runtime) = [] →
  ToolNode.run operator state runtime =
    (Returned {| goto := "assistant_node";
                 update := {| upd_messages := []; upd_constraints := None |} |},
     []).
Proof. apply run_empty_catalog. Qed.

Lemma empty_catalog_passes_through_witness :
  last (messages Examples.state) =
    Some (AIMessage "a1" "" [Examples.call_1; Examples.call_2]) ∧
  tools (context Examples.no_tools) = [] ∧
  ToolNode.run Examples.declines_edit Examples.state Examples.no_tools =
    (Returned {| goto := "assistant_node";
                 update := {| upd_messages := []; upd_constraints := None |} |},
     []).
Proof.
  split_and!; [reflexivity.. |].
  apply (empty_catalog_passes_through Examples.declines_edit Examples.state
           Examples.no_tools (AIMessage "a1" "" [Examples.call_1; Examples.call_2]));
    reflexivity.
Defined.

(** C10. An assistant message without tool calls, with a non-empty
    catalog: the loop body never runs; the node returns destination
    [assistant_node] with an empty list of tool results and no constraint
    key, after an empty trace (no prompt, no invocation). *)
Theorem no_tool_calls_passes_through operator state runtime id content :
  last (messages state) = Some (AIMessage id content []) →
  tools (context runtime) ≠ [] →
  ToolNode.run operator state runtime =
    (Returned {| goto := "assistant_node";
                 update := {| upd_messages := []; upd_constraints := None |} |},
     []).
Proof.
  intros Hlast Htools.
  destruct (run_shape operator _ _ _ _ _ Hlast Htools)
    as (done & ending & rest & Hcalls & Hcompl & Hrun).
  rewrite Hrun. symmetry in Hcalls.
  apply app_eq_nil in Hcalls as [Hdone Hpending].
  apply app_eq_nil in Hpending as [Hpending _].
  apply map_eq_nil in Hdone as ->.
  destruct ending; [reflexivity | discriminate..].
Qed.

Lemma no_tool_calls_passes_through_witness :
  last (messages Examples.idle_state) = Some (AIMessage "a1" "hi" []) ∧
  tools (context Examples.runtime) ≠ [] ∧
  ToolNode.run Examples.declines_edit Examples.idle_state Examples.runtime =
    (Returned {| goto := "assistant_node";
                 update := {| upd_messages := []; upd_constraints := None |} |},
     []).
Proof.
  split_and!; [reflexivity | discriminate |].
  apply (no_tool_calls_passes_through Examples.declines_edit Examples.idle_state
           Examples.runtime "a1" "hi"); [reflexivity | discriminate].
Defined.

(** ** Declining a call *)

Lemma invoked_calls_processed (done : list Processed) :
  map fst (map (λ p, (tc_name (p_call p), tc_args (p_call p), Returned (JStr (p_result p)))) done)
  = map (λ c, (tc_name c, tc_args c)) (map p_call done).
Proof. induction done as [|p done IH]; [reflexivity | simpl; by rewrite IH]. Qed.

(** A "no" among the answers to the "Use" prompts is the last of them,
    and the run ended at the call it declined. *)
Lemma declined_answer_inv (done : list Processed) (ending : Ending) (j : nat) :
  (replicate (length done) true ++ use_answers (ending_events ending)) !! j = Some false →
  j = length done ∧ ∃ c, ending = Declined c.
Proof.
  intros Hj. destruct (decide (j < length done)) as [Hlt|Hge].
  - rewrite lookup_app_l in Hj by (rewrite length_replicate; exact Hlt).
    apply lookup_replicate in Hj as [[=] _].
  - rewrite lookup_app_r in Hj by (rewrite length_replicate; lia).
    rewrite length_replicate, use_answers_ending in Hj.
    destruct ending as [|c|c|c e|c v], (j - length done) as [|i] eqn:Hi;
      try discriminate Hj.
    split; [lia | by exists c].
Qed.

(** C1. Let the message under arbitration carry the calls [tool_calls],
    and let the operator answer "no" to the [k]-th "Use" prompt of the run
    (counting from 1).  Then [k] is the position of a call, the node
    returns a command with destination [assistant_node] whose patch has no
    tool result, exactly one constraint (the one of call [k], of type
    [avoid] and source [declined_tool]) and the removal of the assistant
    message by its id; and the invocations of the run are those of calls
    [1..k-1], in order: no call at position [k] or later is invoked. *)
Theorem decline_aborts_batch operator state runtime id content tool_calls (k : nat) :
  last (messages state) = Some (AIMessage id content tool_calls) →
  (1 ≤ k)%nat →
  use_answers (snd (ToolNode.run operator state runtime)) !! (k - 1) = Some false →
  ∃ c cmd,
    (k ≤ length tool_calls)%nat ∧
    tool_calls !! (k - 1) = Some c ∧
    fst (ToolNode.run operator state runtime) = Returned cmd ∧
    goto cmd = "assistant_node" ∧
    tool_results (update cmd) = [] ∧
    upd_constraints (update cmd) = Some [ToolNode.declined_constraint c] ∧
    type (ToolNode.declined_constraint c) = "avoid" ∧
    source (ToolNode.declined_constraint c) = "declined_tool" ∧
    upd_messages (update cmd) = [RemoveMessage id] ∧
    map fst (invocations (snd (ToolNode.run operator state runtime))) =
      map (λ c, (tc_name c, tc_args c)) (take (k - 1) tool_calls).
Proof.
  intros Hlast Hk Hno.
  destruct (tools (context runtime)) as [|t ts] eqn:Htools.
  { rewrite (run_empty_catalog _ _ _ _ Hlast Htools) in Hno. discriminate Hno. }
  destruct (run_shape operator state runtime _ _ _ Hlast) as
    (done & ending & rest & Hcalls & _ & Hrun); [by rewrite Htools |].
  rewrite Hrun in *. cbn [fst snd] in *.
  rewrite use_answers_app, use_answers_processed in Hno.
  apply declined_answer_inv in Hno as [Hj [c ->]].
  cbn [pending ending_outcome ending_events] in *.
  assert (Hlen : length (map p_call done) = k - 1) by (rewrite length_map; lia).
  exists c. eexists. split_and!; try reflexivity.
  - rewrite Hcalls, !length_app, length_map. simpl. lia.
  - rewrite Hcalls, lookup_app_r by lia. by rewrite Hlen, Nat.sub_diag.
  - rewrite invocations_app, invocations_processed. cbn. rewrite app_nil_r.
    rewrite invoked_calls_processed, Hcalls, <- Hlen. by rewrite take_app_length.
Qed.

Lemma decline_aborts_batch_witness :
  last (messages Examples.state) =
    Some (AIMessage "a1" "" [Examples.call_1; Examples.call_2]) ∧
  (1 ≤ 2)%nat ∧
  use_answers (snd (ToolNode.run Examples.declines_edit Examples.state Examples.runtime))
    !! (2 - 1) = Some false ∧
  ∃ c cmd,
    (2 ≤ length [Examples.call_1; Examples.call_2])%nat ∧
    [Examples.call_1; Examples.call_2] !! (2 - 1) = Some c ∧
    fst (ToolNode.run Examples.declines_edit Examples.state Examples.runtime) = Returned cmd ∧
    goto cmd = "assistant_node" ∧
    tool_results (update cmd) = [] ∧
    upd_constraints (update cmd) = Some [ToolNode.declined_constraint c] ∧
    type (ToolNode.declined_constraint c) = "avoid" ∧
    source (ToolNode.declined_constraint c) = "declined_tool" ∧
    upd_messages (update cmd) = [RemoveMessage "a1"] ∧
    map fst (invocations (snd (ToolNode.run Examples.declines_edit Examples.state
                                 Examples.runtime))) =
      map (λ c, (tc_name c, tc_args c)) (take (2 - 1) [Examples.call_1; Examples.call_2]).
Proof.
  split_and!; [reflexivity | lia | vm_compute; reflexivity |].
  apply (decline_aborts_batch Examples.declines_edit Examples.state Examples.runtime
           "a1" "" [Examples.call_1; Examples.call_2] 2);
    [reflexivity | lia | vm_compute; reflexivity].
Defined.
(** ** Accepting and keeping everything *)

Lemma outputs_are_tool_results (done : list Processed) :
  List.filter is_ToolMessage (map output_of done) = map output_of done.
Proof. induction done as [|p done IH]; [reflexivity | simpl; by rewrite IH]. Qed.

Lemma outputs_all_kept (done : list Processed) :
  map p_keep done = replicate (length done) true →
  map output_of done =
  zip_with (λ c v, ToolMessage (json.dumps v) (tc_name c) (tc_id c))
    (map p_call done) (map (λ p, JStr (p_result p)) done).
Proof.
  induction done as [|p done IH]; [reflexivity |].
  cbn [map length replicate zip_with]. intros [= Hp Hdone].
  rewrite <- IH by exact Hdone. unfold output_of at 1. by rewrite Hp.
Qed.

Lemma invocations_zip (done : list Processed) :
  map (λ p, (tc_name (p_call p), tc_args (p_call p), Returned (JStr (p_result p)))) done =
  zip_with (λ c v, (tc_name c, tc_args c, Returned v))
    (map p_call done) (map (λ p, JStr (p_result p)) done).
Proof. induction done as [|p done IH]; [reflexivity | simpl; by rewrite IH]. Qed.

(** A run in which as many results were reviewed as there are calls went
    through every call. *)
Lemma all_reviewed_completed (tool_calls rest : list ToolCall)
    (done : list Processed) (ending : Ending) :
  tool_calls = map p_call done ++ pending ending ++ rest →
  length done = length tool_calls →
  ending = Completed ∧ rest = [] ∧ tool_calls = map p_call done.
Proof.
  intros Hcalls Hlen. rewrite Hcalls, !length_app, length_map in Hlen.
  assert (Hnil : pending ending ++ rest = []).
  { apply length_zero_iff_nil. rewrite length_app. lia. }
  apply app_eq_nil in Hnil as [Hp Hr].
  rewrite Hp, Hr, app_nil_r in Hcalls.
  by destruct ending.
Qed.

(** C3. Let the message under arbitration carry [N] calls, and let the
    run record [N] answers to the "Use" prompts and [N] answers to the
    review prompts, all of them "yes": the operator accepted every call
    and kept every result.  Then the node returns a command with
    destination [assistant_node]; its patch holds exactly [N] tool
    results, the i-th carrying the name and id of the i-th call and the
    JSON text of what its tool returned, and no constraint. *)
Theorem all_accepted_all_kept operator state runtime id content tool_calls :
  last (messages state) = Some (AIMessage id content tool_calls) →
  use_answers (snd (ToolNode.run operator state runtime)) =
    replicate (length tool_calls) true →
  review_answers (snd (ToolNode.run operator state runtime)) =
    replicate (length tool_calls) true →
  ∃ results cmd,
    fst (ToolNode.run operator state runtime) = Returned cmd ∧
    goto cmd = "assistant_node" ∧
    length results = length tool_calls ∧
    upd_messages (update cmd) =
      zip_with (λ c v, ToolMessage (json.dumps v) (tc_name c) (tc_id c))
        tool_calls results ∧
    tool_results (update cmd) = upd_messages (update cmd) ∧
    length (tool_results (update cmd)) = length tool_calls ∧
    upd_constraints (update cmd) = None ∧
    constraint_entries (update cmd) = [] ∧
    invocations (snd (ToolNode.run operator state runtime)) =
      zip_with (λ c v, (tc_name c, tc_args c, Returned v)) tool_calls results.
Proof.
  intros Hlast Huse Hreview.
  destruct (tools (context runtime)) as [|t ts] eqn:Htools.
  { rewrite (run_empty_catalog _ _ _ _ Hlast Htools) in *. cbn [fst snd] in *.
    destruct tool_calls; [| discriminate Huse].
    exists [], pass_through. by split_and!. }
  destruct (run_shape operator state runtime _ _ _ Hlast) as
    (done & ending & rest & Hcalls & _ & Hrun); [by rewrite Htools |].
  rewrite Hrun in *. cbn [fst snd] in *. clear Huse.
  rewrite review_answers_app, review_answers_processed, review_answers_ending,
    app_nil_r in Hreview.
  assert (Hlen : length done = length tool_calls).
  { apply (f_equal length) in Hreview.
    by rewrite length_map, length_replicate in Hreview. }
  destruct (all_reviewed_completed _ _ _ _ Hcalls Hlen) as (-> & -> & Hdone).
  rewrite <- Hlen in Hreview. apply outputs_all_kept in Hreview.
  exists (map (λ p, JStr (p_result p)) done),
    {| goto := "assistant_node";
       update := {| upd_messages := map output_of done; upd_constraints := None |} |}.
  cbn [ending_outcome ending_events update upd_messages upd_constraints goto
       constraint_entries default].
  unfold tool_results. cbn [upd_messages].
  rewrite app_nil_r, invocations_processed, invocations_zip.
  rewrite outputs_are_tool_results, Hdone, <- Hreview.
  split_and!; try reflexivity; by rewrite !length_map.
Qed.

Lemma all_accepted_all_kept_witness :
  last (messages Examples.state) =
    Some (AIMessage "a1" "" [Examples.call_1; Examples.call_2]) ∧
  use_answers (snd (ToolNode.run Examples.takes_defaults Examples.state Examples.runtime)) =
    [true; true] ∧
  review_answers (snd (ToolNode.run Examples.takes_defaults Examples.state Examples.runtime)) =
    [true; true] ∧
  ∃ results cmd,
    fst (ToolNode.run Examples.takes_defaults Examples.state Examples.runtime) =
      Returned cmd ∧
    goto cmd = "assistant_node" ∧
    length results = 2 ∧
    upd_messages (update cmd) =
      zip_with (λ c v, ToolMessage (json.dumps v) (tc_name c) (tc_id c))
        [Examples.call_1; Examples.call_2] results ∧
    tool_results (update cmd) = upd_messages (update cmd) ∧
    length (tool_results (update cmd)) = 2 ∧
    upd_constraints (update cmd) = None ∧
    constraint_entries (update cmd) = [] ∧
    invocations (snd (ToolNode.run Examples.takes_defaults Examples.state Examples.runtime)) =
      zip_with (λ c v, (tc_name c, tc_args c, Returned v))
        [Examples.call_1; Examples.call_2] results.
Proof.
  split_and!; [reflexivity | vm_compute; reflexivity | vm_compute; reflexivity |].
  apply (all_accepted_all_kept Examples.takes_defaults Examples.state Examples.runtime
           "a1" "" [Examples.call_1; Examples.call_2]);
    [reflexivity | vm_compute; reflexivity | vm_compute; reflexivity].
Defined.
(** ** Discarding a result at review *)

Lemma lookup_map {A B : Type} (f : A → B) (l : list A) (i : nat) :
  map f l !! i = f <$> (l !! i).
Proof. exact (list_lookup_fmap f l i). Qed.

(** C5. Let the review of the [i]-th result of the run (counting from 0)
    be answered "no", and let the node return a command that is not an
    abort (no constraint key), so that tool results are emitted.  Then
    call [i] was invoked and returned some raw result [v], and the [i]-th
    emitted tool result carries the JSON text of the "not useful"
    placeholder, whatever [v] is, under the name and the id of call [i]. *)
Theorem discarded_result_is_placeholder
    operator state runtime id content tool_calls (i : nat) cmd :
  last (messages state) = Some (AIMessage id content tool_calls) →
  review_answers (snd (ToolNode.run operator state runtime)) !! i = Some false →
  fst (ToolNode.run operator state runtime) = Returned cmd →
  upd_constraints (update cmd) = None →
  ∃ c v,
    tool_calls !! i = Some c ∧
    invocations (snd (ToolNode.run operator state runtime)) !! i =
      Some (tc_name c, tc_args c, Returned v) ∧
    tool_results (update cmd) !! i =
      Some (ToolMessage (json.dumps ToolNode.discarded_result) (tc_name c) (tc_id c)).
Proof.
  intros Hlast Hno Hret Hnone.
  destruct (tools (context runtime)) as [|t ts] eqn:Htools.
  { rewrite (run_empty_catalog _ _ _ _ Hlast Htools) in Hno. discriminate Hno. }
  destruct (run_shape operator state runtime _ _ _ Hlast) as
    (done & ending & rest & Hcalls & Hcompl & Hrun); [by rewrite Htools |].
  rewrite Hrun in *. cbn [fst snd] in *.
  rewrite review_answers_app, review_answers_processed, review_answers_ending,
    app_nil_r, lookup_map in Hno.
  apply fmap_Some in Hno as (p & Hp & Hkeep).
  destruct ending as [|c|c|c e|c v]; try discriminate Hret.
  - injection Hret as <-. rewrite (Hcompl eq_refl), !app_nil_r in Hcalls. subst tool_calls.
    exists (p_call p), (JStr (p_result p)).
    unfold tool_results. cbn [update upd_messages ending_events].
    rewrite app_nil_r, invocations_processed, outputs_are_tool_results, !lookup_map, Hp.
    split_and!; try reflexivity.
    cbn [fmap option_fmap option_map]. unfold output_of. by rewrite <- Hkeep.
  - injection Hret as <-. discriminate Hnone.
Qed.

Lemma discarded_result_is_placeholder_witness :
  last (messages Examples.state) =
    Some (AIMessage "a1" "" [Examples.call_1; Examples.call_2]) ∧
  review_answers (snd (ToolNode.run Examples.keeps_nothing Examples.state Examples.runtime))
    !! 1 = Some false ∧
  fst (ToolNode.run Examples.keeps_nothing Examples.state Examples.runtime) =
    Returned
      {| goto := "assistant_node";
         update :=
           {| upd_messages :=
                [ToolMessage (json.dumps ToolNode.discarded_result) "search" "1";
                 ToolMessage (json.dumps ToolNode.discarded_result) "edit" "2"];
              upd_constraints := None |} |} ∧
  ∃ c v,
    [Examples.call_1; Examples.call_2] !! 1 = Some c ∧
    invocations (snd (ToolNode.run Examples.keeps_nothing Examples.state Examples.runtime))
      !! 1 = Some (tc_name c, tc_args c, Returned v) ∧
    [ToolMessage (json.dumps ToolNode.discarded_result) "search" "1";
     ToolMessage (json.dumps ToolNode.discarded_result) "edit" "2"] !! 1 =
      Some (ToolMessage (json.dumps ToolNode.discarded_result) (tc_name c) (tc_id c)).
Proof.
  split_and!; [reflexivity | vm_compute; reflexivity | vm_compute; reflexivity |].
  apply (discarded_result_is_placeholder Examples.keeps_nothing Examples.state
           Examples.runtime "a1" "" [Examples.call_1; Examples.call_2] 1
           {| goto := "assistant_node";
              update :=
                {| upd_messages :=
                     [ToolMessage (json.dumps ToolNode.discarded_result) "search" "1";
                      ToolMessage (json.dumps ToolNode.discarded_result) "edit" "2"];
                   upd_constraints := None |} |});
    [reflexivity | vm_compute; reflexivity | vm_compute; reflexivity | reflexivity].
Defined.

(** ** A tool that raises, and a tool that returns *)

Lemma explained_ending operator by_name h done ending :
  explained operator by_name h done ending →
  ending_explained operator by_name (h ++ flat_map processed_events done) ending.
Proof.
  revert h. induction done as [|q done IH]; intros h Hwhy.
  - by rewrite app_nil_r.
  - destruct Hwhy as (_ & _ & _ & Hwhy). apply IH in Hwhy.
    cbn [flat_map]. by rewrite (assoc_L (++)).
Qed.

(** An invocation found in a run is that of a processed call, with a
    text as result, or the last event of a run that ended there. *)
Lemma invocation_inv (done : list Processed) (ending : Ending)
    (k : nat) name args r :
  (map (λ p, (tc_name (p_call p), tc_args (p_call p), Returned (JStr (p_result p)))) done
     ++ invocations (ending_events ending)) !! k = Some (name, args, r) →
  (∃ p, done !! k = Some p ∧ name = tc_name (p_call p) ∧ args = tc_args (p_call p) ∧
        r = Returned (JStr (p_result p))) ∨
  k = length done ∧
  ∃ c, name = tc_name c ∧ args = tc_args c ∧
       ((∃ e, ending = Failed c e ∧ r = Raised e) ∨
        (∃ v, ending = Unrenderable c v ∧ r = Returned v)).
Proof.
  intros Hk. apply lookup_app_Some in Hk as [Hk|[Hge Hk]].
  - left. rewrite lookup_map in Hk.
    apply fmap_Some in Hk as (p & Hp & [= -> -> ->]). by exists p.
  - right. rewrite length_map in Hk, Hge. rewrite invocations_ending in Hk.
    destruct ending as [|c|c|c e|c v], (k - length done)%nat as [|j] eqn:Hj;
      try discriminate Hk; injection Hk as <- <- <-;
      (split; [lia |]); exists c; split_and!; try reflexivity.
    + left. by exists e.
    + right. by exists v.
Qed.

Lemma use_answers_ending_length (ending : Ending) :
  ending ≠ Completed → length (use_answers (ending_events ending)) = 1.
Proof. rewrite use_answers_ending. by destruct ending. Qed.

Lemma pending_lookup (tool_calls rest : list ToolCall) (done : list Processed)
    (ending : Ending) (c : ToolCall) :
  tool_calls = map p_call done ++ pending ending ++ rest →
  pending ending = [c] →
  tool_calls !! length done = Some c.
Proof.
  intros -> ->. rewrite lookup_app_r by (by rewrite length_map).
  by rewrite length_map, Nat.sub_diag.
Qed.

Lemma processed_lookup (tool_calls rest : list ToolCall) (done : list Processed)
    (ending : Ending) (i : nat) (p : Processed) :
  tool_calls = map p_call done ++ pending ending ++ rest →
  done !! i = Some p →
  tool_calls !! i = Some (p_call p).
Proof.
  intros -> Hp. apply lookup_app_l_Some. by rewrite lookup_map, Hp.
Qed.

Lemma last_snoc3 (l : Trace) (a b x : Event) : last (l ++ [a; b; x]) = Some x.
Proof.
  change (l ++ [a; b; x]) with (l ++ [a; b] ++ [x]).
  by rewrite (assoc_L (++)), last_snoc.
Qed.

(** C2, as the code has it.  Nothing in the node catches what a tool
    raises, and only a text can be shown to the operator.

    - When the invocation of an accepted call raises [e], the node raises
      [e]: it returns no command, hence neither a tool result nor a
      constraint, and the failed invocation is the last event of the run,
      no later call being presented or invoked.
    - When the invocation returns a text [s], whatever [s] describes, the
      result is reviewed, the next call (if any) is presented, and in a
      batch that runs to its end the call's tool result carries the JSON
      text of [s] if kept and the "not useful" placeholder if not.
    - When the invocation returns a value that is not a text, building
      the result panel raises [TypeError]: again no command is returned
      and the invocation is the last event of the run. *)
Theorem invocation_raises_or_returns operator state runtime id content tool_calls :
  last (messages state) = Some (AIMessage id content tool_calls) →
  (∀ (k : nat) name args e,
     invocations (snd (ToolNode.run operator state runtime)) !! k =
       Some (name, args, Raised e) →
     fst (ToolNode.run operator state runtime) = Raised e ∧
     last (snd (ToolNode.run operator state runtime)) = Some (Invoked name args (Raised e)) ∧
     ∃ c,
       tool_calls !! k = Some c ∧ name = tc_name c ∧ args = tc_args c ∧
       length (use_answers (snd (ToolNode.run operator state runtime))) = S k ∧
       length (invocations (snd (ToolNode.run operator state runtime))) = S k) ∧
  (∀ (i : nat) name args s,
     invocations (snd (ToolNode.run operator state runtime)) !! i =
       Some (name, args, Returned (JStr s)) →
     ∃ c keep,
       tool_calls !! i = Some c ∧ name = tc_name c ∧ args = tc_args c ∧
       review_answers (snd (ToolNode.run operator state runtime)) !! i = Some keep ∧
       ((S i < length tool_calls)%nat →
        is_Some (use_answers (snd (ToolNode.run operator state runtime)) !! S i)) ∧
       ∀ cmd,
         fst (ToolNode.run operator state runtime) = Returned cmd →
         upd_constraints (update cmd) = None →
         tool_results (update cmd) !! i =
           Some (ToolMessage
                   (json.dumps (if keep : bool then JStr s else ToolNode.discarded_result))
                   (tc_name c) (tc_id c))) ∧
  (∀ (k : nat) name args v,
     invocations (snd (ToolNode.run operator state runtime)) !! k =
       Some (name, args, Returned v) →
     (∀ s, v ≠ JStr s) →
     fst (ToolNode.run operator state runtime) = Raised TypeError ∧
     last (snd (ToolNode.run operator state runtime)) =
       Some (Invoked name args (Returned v)) ∧
     ∃ c,
       tool_calls !! k = Some c ∧ name = tc_name c ∧ args = tc_args c ∧
       length (use_answers (snd (ToolNode.run operator state runtime))) = S k ∧
       length (invocations (snd (ToolNode.run operator state runtime))) = S k).
Proof.
  intros Hlast.
  destruct (tools (context runtime)) as [|t ts] eqn:Htools.
  { rewrite (run_empty_catalog _ _ _ _ Hlast Htools). cbn [fst snd]. split_and!.
    - intros k name args e [=].
    - intros i name args s [=].
    - intros k name args v [=]. }
  destruct (run_explained operator state runtime _ _ _ Hlast) as
    (done & ending & rest & Hcalls & Hcompl & Hrun & Hwhy); [by rewrite Htools |].
  apply explained_ending in Hwhy.
  rewrite Hrun. cbn [fst snd].
  rewrite use_answers_app, use_answers_processed, invocations_app, invocations_processed,
    review_answers_app, review_answers_processed, review_answers_ending, app_nil_r.
  split_and!.
  - intros k name args e Hk.
    apply invocation_inv in Hk
      as [(p & _ & _ & _ & [=])|(-> & c & -> & -> & [(e' & -> & [= <-])|(v & _ & [=])])].
    cbn [ending_outcome]. split_and!; [reflexivity | cbn [ending_events]; apply last_snoc3 |].
    exists c. rewrite !length_app, length_replicate, length_map.
    rewrite (pending_lookup _ _ _ _ c Hcalls eq_refl), use_answers_ending,
      invocations_ending. simpl. split_and!; try reflexivity; lia.
  - intros i name args s Hi.
    apply invocation_inv in Hi
      as [(p & Hp & -> & -> & [= ->])
         |(-> & c & -> & -> & [(e' & _ & [=])|(v & -> & [= <-])])];
      [| by destruct Hwhy as (_ & Hv & _); destruct (Hv s)].
    pose proof (lookup_lt_Some _ _ _ Hp) as Hlt.
    exists (p_call p), (p_keep p). split_and!; try reflexivity.
    + by eapply processed_lookup.
    + by rewrite lookup_map, Hp.
    + intros Hnext. apply lookup_lt_is_Some.
      rewrite length_app, length_replicate.
      assert (Hcases : ending = Completed ∨ ending ≠ Completed)
        by (destruct ending; auto).
      destruct Hcases as [->|Hne].
      * rewrite (Hcompl eq_refl), !app_nil_r in Hcalls.
        rewrite Hcalls, length_map in Hnext. simpl. lia.
      * rewrite (use_answers_ending_length _ Hne). lia.
    + intros cmd Hret Hnone.
      destruct ending as [|c|c|c e|c v]; try discriminate Hret.
      * injection Hret as <-. unfold tool_results. cbn [update upd_messages].
        by rewrite outputs_are_tool_results, lookup_map, Hp.
      * injection Hret as <-. discriminate Hnone.
  - intros k name args v Hk Hv.
    apply invocation_inv in Hk
      as [(p & _ & _ & _ & [= ->])
         |(-> & c & -> & -> & [(e' & _ & [=])|(v' & -> & [= <-])])];
      [by destruct (Hv (p_result p)) |].
    cbn [ending_outcome]. split_and!; [reflexivity | cbn [ending_events]; apply last_snoc3 |].
    exists c. rewrite !length_app, length_replicate, length_map.
    rewrite (pending_lookup _ _ _ _ c Hcalls eq_refl), use_answers_ending,
      invocations_ending. simpl. split_and!; try reflexivity; lia.
Qed.

Lemma invocation_raises_or_returns_witness :
  last (messages Examples.state) =
    Some (AIMessage "a1" "" [Examples.call_1; Examples.call_2]) ∧
  (invocations (snd (ToolNode.run Examples.takes_defaults Examples.state
                       Examples.broken_runtime)) !! 0 =
     Some ("search", [(str_of "q", JStr (str_of "x"))], Raised (ToolException "timeout")) ∧
   fst (ToolNode.run Examples.takes_defaults Examples.state Examples.broken_runtime) =
     Raised (ToolException "timeout")) ∧
  (invocations (snd (ToolNode.run Examples.keeps_nothing Examples.state
                       Examples.runtime)) !! 0 =
     Some ("search", [(str_of "q", JStr (str_of "x"))],
           Returned (JStr (str_of "3 matches"))) ∧
   ∃ c keep,
     [Examples.call_1; Examples.call_2] !! 0 = Some c ∧
     review_answers (snd (ToolNode.run Examples.keeps_nothing Examples.state
                            Examples.runtime)) !! 0 = Some keep) ∧
  (invocations (snd (ToolNode.run Examples.takes_defaults Examples.state
                       Cases.failing_runtime)) !! 0 =
     Some ("search", [(str_of "q", JStr (str_of "x"))],
           Returned (JDict [(str_of "error", JStr (str_of "timeout"))])) ∧
   (∀ s, JDict [(str_of "error", JStr (str_of "timeout"))] ≠ JStr s) ∧
   fst (ToolNode.run Examples.takes_defaults Examples.state Cases.failing_runtime) =
     Raised TypeError).
Proof.
  split_and!; [reflexivity | vm_compute; reflexivity | | vm_compute; reflexivity |
               | vm_compute; reflexivity | discriminate |].
  - apply (proj1 (invocation_raises_or_returns Examples.takes_defaults Examples.state
                    Examples.broken_runtime "a1" "" [Examples.call_1; Examples.call_2]
                    eq_refl)
             0 "search" [(str_of "q", JStr (str_of "x"))] (ToolException "timeout")).
    vm_compute; reflexivity.
  - destruct (proj1 (proj2 (invocation_raises_or_returns Examples.keeps_nothing
                              Examples.state Examples.runtime "a1" ""
                              [Examples.call_1; Examples.call_2] eq_refl))
                0 "search" [(str_of "q", JStr (str_of "x"))] (str_of "3 matches"))
      as (c & keep & Hc & _ & _ & Hkeep & _); [vm_compute; reflexivity |].
    by exists c, keep.
  - apply (proj2 (proj2 (invocation_raises_or_returns Examples.takes_defaults
                           Examples.state Cases.failing_runtime "a1" ""
                           [Examples.call_1; Examples.call_2] eq_refl))
             0 "search" [(str_of "q", JStr (str_of "x"))]
             (JDict [(str_of "error", JStr (str_of "timeout"))]));
      [vm_compute; reflexivity | discriminate].
Defined.

(** C2, as stated, fails when a tool raises: with a [search] that raises,
    the operator accepts the first call, its invocation raises, and the
    node returns no command at all; the second call is never presented. *)
Lemma failed_invocation_is_not_recovered :
  invocations (snd (ToolNode.run Examples.takes_defaults Examples.state
                      Examples.broken_runtime)) =
    [("search", [(str_of "q", JStr (str_of "x"))], Raised (ToolException "timeout"))] ∧
  use_answers (snd (ToolNode.run Examples.takes_defaults Examples.state
                      Examples.broken_runtime)) = [true] ∧
  ¬ (∃ cmd, fst (ToolNode.run Examples.takes_defaults Examples.state
                   Examples.broken_runtime) = Returned cmd).
Proof.
  split_and!; [vm_compute; reflexivity | vm_compute; reflexivity |].
  intros [cmd Hcmd]. vm_compute in Hcmd. discriminate Hcmd.
Qed.

(** ** The constraint of a declined call *)

(** A run in which some "Use" prompt is answered "no" returns the abort
    command of the call at that position. *)
Lemma declined_run operator state runtime id content tool_calls (j : nat) :
  last (messages state) = Some (AIMessage id content tool_calls) →
  use_answers (snd (ToolNode.run operator state runtime)) !! j = Some false →
  ∃ c,
    tool_calls !! j = Some c ∧
    fst (ToolNode.run operator state runtime) =
      Returned
        {| goto := "assistant_node";
           update := {| upd_messages := [RemoveMessage id];
                        upd_constraints := Some [ToolNode.declined_constraint c] |} |}.
Proof.
  intros Hlast Hno.
  destruct (tools (context runtime)) as [|t ts] eqn:Htools.
  { rewrite (run_empty_catalog _ _ _ _ Hlast Htools) in Hno. discriminate Hno. }
  destruct (run_shape operator state runtime _ _ _ Hlast) as
    (done & ending & rest & Hcalls & _ & Hrun); [by rewrite Htools |].
  rewrite Hrun in *. cbn [fst snd] in *.
  rewrite use_answers_app, use_answers_processed in Hno.
  apply declined_answer_inv in Hno as [-> [c ->]].
  exists c. split; [| reflexivity].
  rewrite Hcalls, lookup_app_r by (by rewrite length_map).
  by rewrite length_map, Nat.sub_diag.
Qed.

(** C6, as the code has it.  Take two runs of the node, in each of which
    the operator declines a call (the [k]-th and the [k']-th, counting
    from 1).  Each returns a patch with exactly one constraint, of type
    [avoid] and source [declined_tool], whose description is the sentence
    "Do not use <name> with arguments: <args>", the arguments being the
    [json.dumps] text of the declined call's argument dict: it mentions
    the tool name and the arguments.  If the two declined calls have the
    same name and the same argument dict, item for item in the same order,
    the two descriptions are the same. *)
Theorem declined_constraint_describes_call
    operator state runtime id content tool_calls (k : nat)
    operator' state' runtime' id' content' tool_calls' (k' : nat) :
  last (messages state) = Some (AIMessage id content tool_calls) →
  last (messages state') = Some (AIMessage id' content' tool_calls') →
  (1 ≤ k)%nat → (1 ≤ k')%nat →
  use_answers (snd (ToolNode.run operator state runtime)) !! (k - 1) = Some false →
  use_answers (snd (ToolNode.run operator' state' runtime')) !! (k' - 1) = Some false →
  ∃ c c' cmd cmd' constraint constraint',
    tool_calls !! (k - 1) = Some c ∧
    tool_calls' !! (k' - 1) = Some c' ∧
    fst (ToolNode.run operator state runtime) = Returned cmd ∧
    fst (ToolNode.run operator' state' runtime') = Returned cmd' ∧
    upd_constraints (update cmd) = Some [constraint] ∧
    upd_constraints (update cmd') = Some [constraint'] ∧
    type constraint = "avoid" ∧
    source constraint = "declined_tool" ∧
    description constraint =
      "Do not use " +:+ tc_name c +:+ " with arguments: "
        +:+ json.dumps (JDict (tc_args c)) ∧
    (tc_name c = tc_name c' → tc_args c = tc_args c' →
     description constraint = description constraint').
Proof.
  intros Hlast Hlast' _ _ Hno Hno'.
  destruct (declined_run _ _ _ _ _ _ _ Hlast Hno) as (c & Hc & Hrun).
  destruct (declined_run _ _ _ _ _ _ _ Hlast' Hno') as (c' & Hc' & Hrun').
  exists c, c'. eexists _, _, (ToolNode.declined_constraint c),
    (ToolNode.declined_constraint c').
  split_and!; [exact Hc | exact Hc' | exact Hrun | exact Hrun' | reflexivity..|].
  intros Hname Hargs. unfold ToolNode.declined_constraint. cbn [description].
  by rewrite Hname, Hargs.
Qed.

Lemma declined_constraint_describes_call_witness :
  last (messages Examples.state) =
    Some (AIMessage "a1" "" [Examples.call_1; Examples.call_2]) ∧
  last (messages Cases.again_state) = Some (AIMessage "a3" "" [Cases.call_2_again]) ∧
  use_answers (snd (ToolNode.run Examples.declines_edit Examples.state Examples.runtime))
    !! (2 - 1) = Some false ∧
  use_answers (snd (ToolNode.run Examples.declines_edit Cases.again_state
                      Cases.shadowing_runtime)) !! (1 - 1) = Some false ∧
  tc_id Examples.call_2 ≠ tc_id Cases.call_2_again ∧
  ∃ c c' cmd cmd' constraint constraint',
    [Examples.call_1; Examples.call_2] !! (2 - 1) = Some c ∧
    [Cases.call_2_again] !! (1 - 1) = Some c' ∧
    fst (ToolNode.run Examples.declines_edit Examples.state Examples.runtime) =
      Returned cmd ∧
    fst (ToolNode.run Examples.declines_edit Cases.again_state Cases.shadowing_runtime) =
      Returned cmd' ∧
    upd_constraints (update cmd) = Some [constraint] ∧
    upd_constraints (update cmd') = Some [constraint'] ∧
    type constraint = "avoid" ∧
    source constraint = "declined_tool" ∧
    description constraint =
      "Do not use " +:+ tc_name c +:+ " with arguments: "
        +:+ json.dumps (JDict (tc_args c)) ∧
    (tc_name c = tc_name c' → tc_args c = tc_args c' →
     description constraint = description constraint').
Proof.
  split_and!;
    [reflexivity | reflexivity | vm_compute; reflexivity | vm_compute; reflexivity
    | discriminate |].
  apply (declined_constraint_describes_call
           Examples.declines_edit Examples.state Examples.runtime
           "a1" "" [Examples.call_1; Examples.call_2] 2
           Examples.declines_edit Cases.again_state Cases.shadowing_runtime
           "a3" "" [Cases.call_2_again] 1);
    [reflexivity | reflexivity | lia | lia | vm_compute; reflexivity
    | vm_compute; reflexivity].
Defined.

(** C6, as stated, fails for argument dicts that are equal as dicts but
    not item for item: two declined [edit] calls whose dicts hold the same
    two items, one as [a], [b] and one as [b], [a], get constraints with
    different descriptions. *)
Lemma equal_dicts_described_differently :
  tc_name Cases.call_ab = tc_name Cases.call_ba ∧
  tc_args Cases.call_ab ≡ₚ tc_args Cases.call_ba ∧
  NoDup (map fst (tc_args Cases.call_ab)) ∧
  ∃ constraint constraint',
    fst (ToolNode.run Examples.declines_edit Cases.ab_state Examples.runtime) =
      Returned
        {| goto := "assistant_node";
           update := {| upd_messages := [RemoveMessage "a4"];
                        upd_constraints := Some [constraint] |} |} ∧
    fst (ToolNode.run Examples.declines_edit Cases.ba_state Examples.runtime) =
      Returned
        {| goto := "assistant_node";
           update := {| upd_messages := [RemoveMessage "a5"];
                        upd_constraints := Some [constraint'] |} |} ∧
    description constraint ≠ description constraint'.
Proof.
  split_and!.
  - reflexivity.
  - apply perm_swap.
  - apply NoDup_cons. split; [| apply NoDup_singleton].
    intros Hin. by apply list_elem_of_singleton in Hin.
  - exists (ToolNode.declined_constraint Cases.call_ab),
      (ToolNode.declined_constraint Cases.call_ba).
    split_and!; [vm_compute; reflexivity | vm_compute; reflexivity |].
    vm_compute. discriminate.
Qed.
(** ** The dict of tools *)

Lemma tools_by_name_snoc tools tool :
  ToolNode.tools_by_name (tools ++ [tool]) =
  <[tool_name tool := tool]> (ToolNode.tools_by_name tools).
Proof. unfold ToolNode.tools_by_name. by rewrite foldl_app. Qed.

Lemma tools_by_name_lookup tools key :
  ToolNode.tools_by_name tools !! key =
  last (filter (λ tool, tool_name tool = key) tools).
Proof.
  induction tools as [|tool tools IH] using rev_ind; [apply lookup_empty |].
  rewrite tools_by_name_snoc, lookup_insert, filter_app.
  case_decide as Hkey.
  - rewrite (filter_cons_True _ tool []), filter_nil by exact Hkey. by rewrite last_snoc.
  - rewrite (filter_cons_False _ tool []) by exact Hkey.
    by rewrite filter_nil, app_nil_r.
Qed.

Lemma filter_name_nil (tools : list Tool) (key : string) :
  (∀ tool, tool ∈ tools → tool_name tool ≠ key) →
  filter (λ tool, tool_name tool = key) tools = [].
Proof.
  induction tools as [|tool tools IH]; intros Hnone; [reflexivity |].
  rewrite filter_cons_False by (apply Hnone; left).
  apply IH. intros tool' Hin. apply Hnone. by right.
Qed.

(** X1. [tools_by_name] maps a name to the last tool of the catalog that
    carries it: a tool registered later shadows an earlier one of the same
    name, and a name is missing from the dict exactly when no tool of the
    catalog carries it. *)
Theorem tools_by_name_last_wins (tools : list Tool) (key : string) :
  ToolNode.tools_by_name tools !! key =
    last (filter (λ tool, tool_name tool = key) tools) ∧
  (ToolNode.tools_by_name tools !! key = None ↔
     ∀ tool, tool ∈ tools → tool_name tool ≠ key) ∧
  (∀ earlier tool later,
     tools = earlier ++ tool :: later →
     tool_name tool = key →
     (∀ tool', tool' ∈ later → tool_name tool' ≠ key) →
     ToolNode.tools_by_name tools !! key = Some tool).
Proof.
  split_and!.
  - apply tools_by_name_lookup.
  - rewrite tools_by_name_lookup, last_None. split.
    + intros Hnone tool Hin Hname.
      assert (Hin' : tool ∈ filter (λ tool, tool_name tool = key) tools)
        by (apply list_elem_of_filter; done).
      rewrite Hnone in Hin'. by apply not_elem_of_nil in Hin'.
    + apply filter_name_nil.
  - intros earlier tool later -> Hname Hlater.
    rewrite tools_by_name_lookup, filter_app, filter_cons_True by exact Hname.
    rewrite (filter_name_nil later key Hlater). apply last_snoc.
Qed.

Lemma tools_by_name_last_wins_witness :
  tools (context Cases.shadowing_runtime) =
    [Examples.broken_search; Examples.edit] ++ Examples.search :: [] ∧
  tool_name Examples.broken_search = tool_name Examples.search ∧
  ToolNode.tools_by_name (tools (context Cases.shadowing_runtime)) !! "search" =
    Some Examples.search.
Proof.
  split_and!; [reflexivity | reflexivity |].
  apply (proj2 (proj2 (tools_by_name_last_wins (tools (context Cases.shadowing_runtime))
                         "search"))
           [Examples.broken_search; Examples.edit] Examples.search []);
    [reflexivity | reflexivity |].
  intros tool Hin. by apply not_elem_of_nil in Hin.
Defined.


(** ** A call to a tool the catalog does not have *)

Lemma explained_lookup operator by_name h done ending :
  explained operator by_name h done ending →
  ∀ p, p ∈ done → is_Some (by_name !! tc_name (p_call p)).
Proof.
  revert h. induction done as [|q done IH]; intros h Hwhy p Hin.
  - by apply not_elem_of_nil in Hin.
  - destruct Hwhy as (_ & (tool & Htool & _) & _ & Hwhy).
    apply elem_of_cons in Hin as [->|Hin]; [by exists tool | by eapply IH].
Qed.

(** A "yes" among the answers to the "Use" prompts belongs to a processed
    call, or is the last answer of a run that ended in an exception. *)
Lemma accepted_answer_inv (done : list Processed) (ending : Ending) (k : nat) :
  (replicate (length done) true ++ use_answers (ending_events ending)) !! k = Some true →
  (k < length done)%nat ∨
  k = length done ∧
  ∃ c, ending = Missing c ∨ (∃ e, ending = Failed c e) ∨ (∃ v, ending = Unrenderable c v).
Proof.
  intros Hk. destruct (decide (k < length done)%nat) as [Hlt|Hge]; [by left | right].
  rewrite lookup_app_r in Hk by (rewrite length_replicate; lia).
  rewrite length_replicate, use_answers_ending in Hk.
  destruct ending as [|c|c|c e|c v], (k - length done)%nat as [|i] eqn:Hi;
    try discriminate Hk; (split; [lia |]); exists c.
  - by left.
  - right. left. by exists e.
  - right. right. by exists v.
Qed.

(** X2. An accepted call whose tool name no tool of the catalog carries
    makes the node raise [KeyError] on that name: no command is returned,
    the accepted prompt is the last event of the run, and the invocations
    of the run are those of the calls before it, in order. *)
Theorem unknown_tool_raises_KeyError
    operator state runtime id content tool_calls (k : nat) c :
  last (messages state) = Some (AIMessage id content tool_calls) →
  tool_calls !! k = Some c →
  (∀ tool, tool ∈ tools (context runtime) → tool_name tool ≠ tc_name c) →
  use_answers (snd (ToolNode.run operator state runtime)) !! k = Some true →
  fst (ToolNode.run operator state runtime) = Raised (KeyError (tc_name c)) ∧
  last (snd (ToolNode.run operator state runtime)) =
    Some (Prompted (ToolNode.use_prompt c) true true) ∧
  length (invocations (snd (ToolNode.run operator state runtime))) = k ∧
  map fst (invocations (snd (ToolNode.run operator state runtime))) =
    map (λ c, (tc_name c, tc_args c)) (take k tool_calls).
Proof.
  intros Hlast Hc Hnone Hyes.
  destruct (tools (context runtime)) as [|t ts] eqn:Htools.
  { rewrite (run_empty_catalog _ _ _ _ Hlast Htools) in Hyes. discriminate Hyes. }
  destruct (run_explained operator state runtime _ _ _ Hlast) as
    (done & ending & rest & Hcalls & _ & Hrun & Hwhy); [by rewrite Htools |].
  rewrite Htools in Hwhy.
  assert (Hmiss : ToolNode.tools_by_name (t :: ts) !! tc_name c = None).
  { rewrite tools_by_name_lookup, (filter_name_nil _ _ Hnone). reflexivity. }
  rewrite Hrun in *. cbn [fst snd] in *.
  rewrite use_answers_app, use_answers_processed in Hyes.
  apply accepted_answer_inv in Hyes as [Hlt|[-> [c' Hending]]].
  - apply lookup_lt_is_Some in Hlt as [p Hp].
    pose proof (processed_lookup _ _ _ _ _ _ Hcalls Hp) as Hc'.
    rewrite Hc in Hc'. injection Hc' as ->.
    destruct (explained_lookup _ _ _ _ _ Hwhy p) as [tool Htool].
    { by eapply list_elem_of_lookup_2. }
    rewrite Hmiss in Htool. discriminate Htool.
  - apply explained_ending in Hwhy.
    destruct Hending as [->|[[e ->]|[v ->]]];
      rewrite (pending_lookup _ _ _ _ c' Hcalls eq_refl) in Hc; injection Hc as ->.
    + cbn [ending_outcome ending_events]. split_and!; [reflexivity | | |].
      * match goal with
        | |- last (?l ++ [?a; ?x]) = _ => change (l ++ [a; x]) with (l ++ [a] ++ [x])
        end.
        by rewrite (assoc_L (++)), last_snoc.
      * rewrite invocations_app, invocations_processed. cbn.
        by rewrite app_nil_r, length_map.
      * rewrite invocations_app, invocations_processed. cbn. rewrite app_nil_r.
        rewrite invoked_calls_processed, Hcalls.
        rewrite <- (length_map p_call done). by rewrite take_app_length.
    + destruct Hwhy as (_ & tool & Htool & _).
      rewrite Hmiss in Htool. discriminate Htool.
    + destruct Hwhy as (_ & _ & tool & Htool & _).
      rewrite Hmiss in Htool. discriminate Htool.
Qed.

Lemma unknown_tool_raises_KeyError_witness :
  last (messages Cases.deploy_state) =
    Some (AIMessage "a2" "" [Examples.call_1; Cases.call_3]) ∧
  [Examples.call_1; Cases.call_3] !! 1 = Some Cases.call_3 ∧
  (∀ tool, tool ∈ tools (context Examples.runtime) → tool_name tool ≠ "deploy") ∧
  use_answers (snd (ToolNode.run Examples.takes_defaults Cases.deploy_state Examples.runtime))
    !! 1 = Some true ∧
  fst (ToolNode.run Examples.takes_defaults Cases.deploy_state Examples.runtime) =
    Raised (KeyError "deploy") ∧
  length (invocations (snd (ToolNode.run Examples.takes_defaults Cases.deploy_state
                              Examples.runtime))) = 1.
Proof.
  assert (Hnone : ∀ tool, tool ∈ tools (context Examples.runtime) →
                          tool_name tool ≠ "deploy").
  { intros tool Hin. cbn in Hin.
    apply elem_of_cons in Hin as [->|Hin]; [discriminate |].
    apply list_elem_of_singleton in Hin as ->. discriminate. }
  split_and!; [reflexivity | reflexivity | exact Hnone | vm_compute; reflexivity | |].
  - apply (unknown_tool_raises_KeyError Examples.takes_defaults Cases.deploy_state
             Examples.runtime "a2" "" [Examples.call_1; Cases.call_3] 1 Cases.call_3);
      [reflexivity | reflexivity | exact Hnone | vm_compute; reflexivity].
  - apply (unknown_tool_raises_KeyError Examples.takes_defaults Cases.deploy_state
             Examples.runtime "a2" "" [Examples.call_1; Cases.call_3] 1 Cases.call_3);
      [reflexivity | reflexivity | exact Hnone | vm_compute; reflexivity].
Defined.
(** ** An operator who takes every default *)

Lemma explained_keeps operator by_name h done ending :
  (∀ h' message, operator h' message true = true) →
  explained operator by_name h done ending →
  map p_keep done = replicate (length done) true.
Proof.
  intros Hyes. revert h. induction done as [|p done IH]; intros h Hwhy; [reflexivity |].
  destruct Hwhy as (_ & _ & Hkeep & Hwhy).
  cbn [map length replicate]. rewrite (IH _ Hwhy). rewrite Hyes in Hkeep.
  by rewrite <- Hkeep.
Qed.

Lemma pending_elem_of (tool_calls rest : list ToolCall) (done : list Processed)
    (ending : Ending) (c : ToolCall) :
  tool_calls = map p_call done ++ pending ending ++ rest →
  pending ending = [c] →
  c ∈ tool_calls.
Proof.
  intros Hcalls Hpending. eapply list_elem_of_lookup_2.
  by eapply pending_lookup.
Qed.

(** X3. Every prompt of the node is asked with default "yes".  If the
    operator answers "yes" whenever that is the default, and every
    requested tool is in the dict and returns a text on the call's
    arguments, then the batch runs to its end: the node returns
    destination [assistant_node] with one tool result per call, in order,
    each carrying the JSON text of the text its tool returned, and no
    constraint. *)
Theorem default_answers_complete_batch
    operator state runtime id content tool_calls :
  last (messages state) = Some (AIMessage id content tool_calls) →
  tools (context runtime) ≠ [] →
  (∀ h message, operator h message true = true) →
  (∀ c, c ∈ tool_calls →
     ∃ tool,
       ToolNode.tools_by_name (tools (context runtime)) !! tc_name c = Some tool ∧
       ∀ h, ∃ s, ainvoke tool h (tc_args c) = Returned (JStr s)) →
  ∃ results : list str,
    length results = length tool_calls ∧
    fst (ToolNode.run operator state runtime) =
      Returned
        {| goto := "assistant_node";
           update :=
             {| upd_messages :=
                  zip_with (λ c s, ToolMessage (json.dumps (JStr s)) (tc_name c) (tc_id c))
                    tool_calls results;
                upd_constraints := None |} |} ∧
    invocations (snd (ToolNode.run operator state runtime)) =
      zip_with (λ c s, (tc_name c, tc_args c, Returned (JStr s))) tool_calls results.
Proof.
  intros Hlast Htools Hyes Hcatalog.
  destruct (run_explained operator state runtime _ _ _ Hlast Htools) as
    (done & ending & rest & Hcalls & Hcompl & Hrun & Hwhy).
  pose proof (explained_keeps _ _ _ _ _ Hyes Hwhy) as Hkeeps.
  apply explained_ending in Hwhy.
  destruct ending as [|c|c|c e|c v].
  - rewrite (Hcompl eq_refl), !app_nil_r in Hcalls.
    exists (map p_result done). rewrite Hrun, Hcalls. cbn [fst snd ending_outcome ending_events].
    rewrite app_nil_r, invocations_processed, invocations_zip, (outputs_all_kept _ Hkeeps).
    rewrite !zip_with_fmap_r.
    split_and!; try reflexivity. by rewrite !length_map.
  - cbn in Hwhy. rewrite Hyes in Hwhy. discriminate Hwhy.
  - destruct Hwhy as [_ Hnone].
    destruct (Hcatalog c) as (tool & Htool & _).
    { by eapply pending_elem_of. }
    rewrite Hnone in Htool. discriminate Htool.
  - destruct Hwhy as (_ & tool & Htool & Hraised).
    destruct (Hcatalog c) as (tool' & Htool' & Hreturns).
    { by eapply pending_elem_of. }
    rewrite Htool in Htool'. injection Htool' as <-.
    match type of Hraised with
    | ainvoke _ ?h' _ = _ => destruct (Hreturns h') as [v Hv]
    end.
    rewrite Hraised in Hv. discriminate Hv.
  - destruct Hwhy as (_ & Hno_text & tool & Htool & Hreturned).
    destruct (Hcatalog c) as (tool' & Htool' & Hreturns).
    { by eapply pending_elem_of. }
    rewrite Htool in Htool'. injection Htool' as <-.
    match type of Hreturned with
    | ainvoke _ ?h' _ = _ => destruct (Hreturns h') as [s Hs]
    end.
    rewrite Hreturned in Hs. injection Hs as ->. by destruct (Hno_text s).
Qed.

Lemma default_answers_complete_batch_witness :
  last (messages Examples.state) =
    Some (AIMessage "a1" "" [Examples.call_1; Examples.call_2]) ∧
  tools (context Cases.shadowing_runtime) ≠ [] ∧
  (∀ h message, Examples.takes_defaults h message true = true) ∧
  ∃ results : list str,
    length results = 2 ∧
    fst (ToolNode.run Examples.takes_defaults Examples.state Cases.shadowing_runtime) =
      Returned
        {| goto := "assistant_node";
           update :=
             {| upd_messages :=
                  zip_with (λ c s, ToolMessage (json.dumps (JStr s)) (tc_name c) (tc_id c))
                    [Examples.call_1; Examples.call_2] results;
                upd_constraints := None |} |} ∧
    invocations (snd (ToolNode.run Examples.takes_defaults Examples.state
                        Cases.shadowing_runtime)) =
      zip_with (λ c s, (tc_name c, tc_args c, Returned (JStr s)))
        [Examples.call_1; Examples.call_2] results.
Proof.
  split_and!; [reflexivity | discriminate | reflexivity |].
  apply (default_answers_complete_batch Examples.takes_defaults Examples.state
           Cases.shadowing_runtime "a1" "" [Examples.call_1; Examples.call_2]);
    [reflexivity | discriminate | reflexivity |].
  intros c Hc. apply elem_of_cons in Hc as [->|Hc].
  - exists Examples.search. split; [vm_compute; reflexivity |].
    intros h. by exists (str_of "3 matches").
  - apply list_elem_of_singleton in Hc as ->.
    exists Examples.edit. split; [vm_compute; reflexivity |].
    intros h. by exists (str_of "edited a.py").
Defined.

(** ** Which tool runs *)

Lemma explained_invocation operator by_name h done ending (i : nat) name args r :
  explained operator by_name h done ending →
  invocations (flat_map processed_events done ++ ending_events ending) !! i =
    Some (name, args, r) →
  ∃ tool h',
    by_name !! name = Some tool ∧
    h' `prefix_of` flat_map processed_events done ++ ending_events ending ∧
    ainvoke tool (h ++ h') args = r.
Proof.
  revert h i. induction done as [|p done IH]; intros h i Hwhy Hi.
  - cbn [flat_map app] in *. rewrite invocations_ending in Hi.
    destruct ending as [|c|c|c e|c v]; try discriminate Hi.
    + destruct i as [|i]; [| discriminate Hi]. injection Hi as <- <- <-.
      destruct Hwhy as (_ & tool & Htool & Hres).
      exists tool, [Printed (Pretty c) None; Prompted (ToolNode.use_prompt c) true true].
      split_and!; [exact Htool | | exact Hres].
      by exists [Invoked (tc_name c) (tc_args c) (Raised e)].
    + destruct i as [|i]; [| discriminate Hi]. injection Hi as <- <- <-.
      destruct Hwhy as (_ & _ & tool & Htool & Hres).
      exists tool, [Printed (Pretty c) None; Prompted (ToolNode.use_prompt c) true true].
      split_and!; [exact Htool | | exact Hres].
      by exists [Invoked (tc_name c) (tc_args c) (Returned v)].
  - destruct Hwhy as (_ & (tool & Htool & Hres) & _ & Hwhy).
    cbn [flat_map] in *. rewrite <- (assoc_L (++)) in Hi.
    rewrite invocations_app in Hi.
    destruct i as [|i].
    + injection Hi as <- <- <-.
      exists tool, [Printed (Pretty (p_call p)) None;
                    Prompted (ToolNode.use_prompt (p_call p)) true true].
      split_and!; [exact Htool | | exact Hres].
      eexists. rewrite <- (assoc_L (++)). reflexivity.
    + change (invocations (processed_events p))
        with [(tc_name (p_call p), tc_args (p_call p), Returned (JStr (p_result p)))] in Hi.
      cbn [app lookup list_lookup] in Hi.
      destruct (IH _ _ Hwhy Hi) as (tool' & h' & Htool' & Hpre & Hres').
      exists tool', (processed_events p ++ h').
      split_and!; [exact Htool' | | by rewrite (assoc_L (++))].
      rewrite <- (assoc_L (++)). by apply prefix_app.
Qed.

(** X4. Every invocation recorded in a run is an invocation of the last
    tool of the catalog that carries the invoked name, on the recorded
    arguments; the recorded result is what that tool gives after some
    initial part of the run.  In particular, of two tools with the same
    name only the later one is ever invoked. *)
Theorem invoked_tool_is_last_registered
    operator state runtime id content tool_calls (i : nat) name args r :
  last (messages state) = Some (AIMessage id content tool_calls) →
  invocations (snd (ToolNode.run operator state runtime)) !! i = Some (name, args, r) →
  ∃ tool h,
    last (filter (λ tool, tool_name tool = name) (tools (context runtime))) = Some tool ∧
    h `prefix_of` snd (ToolNode.run operator state runtime) ∧
    ainvoke tool h args = r.
Proof.
  intros Hlast Hi.
  destruct (tools (context runtime)) as [|t ts] eqn:Htools.
  { rewrite (run_empty_catalog _ _ _ _ Hlast Htools) in Hi. discriminate Hi. }
  destruct (run_explained operator state runtime _ _ _ Hlast) as
    (done & ending & rest & _ & _ & Hrun & Hwhy); [by rewrite Htools |].
  rewrite Htools in Hwhy. rewrite Hrun in *. cbn [snd] in *.
  destruct (explained_invocation _ _ _ _ _ _ _ _ _ Hwhy Hi) as (tool & h & Htool & Hpre & Hres).
  exists tool, h. rewrite <- tools_by_name_lookup. done.
Qed.

Lemma invoked_tool_is_last_registered_witness :
  last (messages Examples.state) =
    Some (AIMessage "a1" "" [Examples.call_1; Examples.call_2]) ∧
  invocations (snd (ToolNode.run Examples.takes_defaults Examples.state
                      Cases.shadowing_runtime)) !! 0 =
    Some ("search", [(str_of "q", JStr (str_of "x"))], Returned (JStr (str_of "3 matches"))) ∧
  ∃ tool h,
    last (filter (λ tool, tool_name tool = "search")
            [Examples.broken_search; Examples.edit; Examples.search]) = Some tool ∧
    h `prefix_of` snd (ToolNode.run Examples.takes_defaults Examples.state
                         Cases.shadowing_runtime) ∧
    ainvoke tool h [(str_of "q", JStr (str_of "x"))] = Returned (JStr (str_of "3 matches")).
Proof.
  split_and!; [reflexivity | vm_compute; reflexivity |].
  apply (invoked_tool_is_last_registered Examples.takes_defaults Examples.state
           Cases.shadowing_runtime "a1" "" [Examples.call_1; Examples.call_2] 0);
    [reflexivity | vm_compute; reflexivity].
Defined.

(** ** What a returned command can look like *)

(** X5. Whatever the state, the catalog and the operator, a command
    returned by the node goes to [assistant_node] and is of one of two
    kinds: a patch of tool results only, without a constraint key; or an
    abort, whose patch removes the assistant message under arbitration and
    carries exactly one constraint, the one of one of its calls.  A patch
    never holds both a tool result and a constraint. *)
Theorem returned_command_kinds operator state runtime cmd :
  fst (ToolNode.run operator state runtime) = Returned cmd →
  goto cmd = "assistant_node" ∧
  ((upd_constraints (update cmd) = None ∧
    tool_results (update cmd) = upd_messages (update cmd)) ∨
   (∃ id content tool_calls c,
      last (messages state) = Some (AIMessage id content tool_calls) ∧
      c ∈ tool_calls ∧
      upd_messages (update cmd) = [RemoveMessage id] ∧
      upd_constraints (update cmd) = Some [ToolNode.declined_constraint c] ∧
      tool_results (update cmd) = [])).
Proof.
  intros Hret.
  destruct (last (messages state)) as [message|] eqn:Hlast;
    [| by rewrite (run_no_message _ _ _ Hlast) in Hret].
  destruct (tools (context runtime)) as [|t ts] eqn:Htools.
  { rewrite (run_empty_catalog _ _ _ _ Hlast Htools) in Hret.
    injection Hret as <-. split; [reflexivity | by left]. }
  assert (Hne : tools (context runtime) ≠ []) by (by rewrite Htools).
  destruct message as [id content tool_calls|id content|content name call_id|id];
    try (rewrite (run_not_assistant _ _ _ _ Hlast) in Hret; done).
  destruct (run_shape operator state runtime _ _ _ Hlast Hne) as
    (done & ending & rest & Hcalls & _ & Hrun).
  rewrite Hrun in Hret. cbn [fst] in Hret.
  destruct ending as [|c|c|c e|c v]; try discriminate Hret; injection Hret as <-.
  - split; [reflexivity | left]. split; [reflexivity |].
    unfold tool_results. cbn [update upd_messages]. apply outputs_are_tool_results.
  - split; [reflexivity | right]. exists id, content, tool_calls, c.
    split_and!; try reflexivity. by eapply pending_elem_of.
Qed.

Lemma returned_command_kinds_witness :
  fst (ToolNode.run Examples.declines_edit Examples.state Examples.runtime) =
    Returned
      {| goto := "assistant_node";
         update :=
           {| upd_messages := [RemoveMessage "a1"];
              upd_constraints := Some [ToolNode.declined_constraint Examples.call_2] |} |} ∧
  goto {| goto := "assistant_node";
          update :=
            {| upd_messages := [RemoveMessage "a1"];
               upd_constraints := Some [ToolNode.declined_constraint Examples.call_2] |} |}
    = "assistant_node".
Proof.
  split; [vm_compute; reflexivity |].
  apply (returned_command_kinds Examples.declines_edit Examples.state Examples.runtime).
  vm_compute; reflexivity.
Defined.

(** ** Order and number of the invocations *)



(** ** What stands around an invocation *)

Lemma ending_invocation_bracketed (ending : Ending) pre post name args r :
  ending_events ending = pre ++ Invoked name args r :: post →
  ∃ c,
    name = tc_name c ∧ args = tc_args c ∧
    pre = [Printed (Pretty c) None; Prompted (ToolNode.use_prompt c) true true] ∧
    post = [] ∧
    ((∃ e, r = Raised e ∧ ending = Failed c e) ∨
     (∃ v, r = Returned v ∧ ending = Unrenderable c v)).
Proof.
  intros Heq.
  destruct ending as [|c|c|c e|c v]; cbn [ending_events] in Heq;
    destruct pre as [|e1 [|e2 [|e3 [|e4 pre]]]]; simplify_eq/=.
  - exists c. split_and!; try reflexivity. left. by exists e.
  - exists c. split_and!; try reflexivity. right. by exists v.
Qed.

(** An invocation comes right after the panel of its call and the
    accepted prompt; what follows it is the result panel and the review,
    or nothing when the run ended at the invocation. *)
Lemma invocation_bracketed (done : list Processed) (ending : Ending)
    pre post name args r :
  flat_map processed_events done ++ ending_events ending =
    pre ++ Invoked name args r :: post →
  ∃ pre' c,
    pre = pre' ++ [Printed (Pretty c) None; Prompted (ToolNode.use_prompt c) true true] ∧
    name = tc_name c ∧ args = tc_args c ∧
    ((∃ s keep post',
        r = Returned (JStr s) ∧
        post = Printed (MarkdownText s) (Some "Tool Result")
                 :: Prompted ToolNode.review_prompt true keep :: post') ∨
     (post = [] ∧
      ((∃ e, r = Raised e ∧ ending = Failed c e) ∨
       (∃ v, r = Returned v ∧ ending = Unrenderable c v)))).
Proof.
  revert pre. induction done as [|p done IH]; intros pre Heq.
  - cbn [flat_map app] in Heq.
    apply ending_invocation_bracketed in Heq as (c & -> & -> & -> & -> & Hend).
    exists [], c. split_and!; try reflexivity. by right.
  - cbn [flat_map processed_events] in Heq. rewrite <- (assoc_L (++)) in Heq.
    cbn [app] in Heq.
    destruct pre as [|e1 [|e2 [|e3 [|e4 [|e5 pre]]]]]; simplify_eq/=.
    + exists [], (p_call p). split_and!; try reflexivity. left.
      by exists (p_result p), (p_keep p),
        (flat_map processed_events done ++ ending_events ending).
    + match goal with
      | Htail : flat_map processed_events done ++ _ = _ |- _ =>
          destruct (IH _ Htail) as (pre' & c & -> & Hname & Hargs & Hpost)
      end.
      exists (processed_events p ++ pre'), c. split_and!; try done.
Qed.

Lemma run_trace_shape operator state runtime :
  snd (ToolNode.run operator state runtime) = [] ∨
  ∃ message done ending,
    ToolNode.run operator state runtime =
      (ending_outcome message (map output_of done) ending,
       flat_map processed_events done ++ ending_events ending) ∧
    explained operator (ToolNode.tools_by_name (tools (context runtime))) [] done ending.
Proof.
  destruct (last (messages state)) as [message|] eqn:Hlast;
    [| left; by rewrite (run_no_message _ _ _ Hlast)].
  destruct (tools (context runtime)) as [|t ts] eqn:Htools;
    [left; by rewrite (run_empty_catalog _ _ _ _ Hlast Htools) |].
  assert (Hne : tools (context runtime) ≠ []) by (by rewrite Htools).
  destruct message as [id content tool_calls|id content|content name call_id|id];
    try (left; by rewrite (run_not_assistant _ _ _ _ Hlast)).
  destruct (run_explained operator state runtime _ _ _ Hlast Hne) as
    (done & ending & rest & _ & _ & Hrun & Hwhy).
  right. exists (AIMessage id content tool_calls), done, ending.
  split; [exact Hrun | by rewrite <- Htools].
Qed.

(** X7. No tool runs unasked: in every run, each invocation comes right
    after the panel showing a call with that tool name and those
    arguments and the "Use <name>" prompt, answered "yes". *)
Theorem invocation_follows_consent operator state runtime pre post name args r :
  snd (ToolNode.run operator state runtime) = pre ++ Invoked name args r :: post →
  ∃ pre' c,
    pre = pre' ++ [Printed (Pretty c) None; Prompted ("Use " +:+ name) true true] ∧
    tc_name c = name ∧ tc_args c = args.
Proof.
  intros Htrace.
  destruct (run_trace_shape operator state runtime)
    as [Hnil|(message & done & ending & Hshape & _)].
  - rewrite Hnil in Htrace. by destruct pre.
  - rewrite Hshape in Htrace. cbn [snd] in Htrace.
    apply invocation_bracketed in Htrace as (pre' & c & -> & -> & -> & _).
    by exists pre', c.
Qed.

Lemma invocation_follows_consent_witness :
  snd (ToolNode.run Examples.declines_edit Examples.state Examples.runtime) =
    [Printed (Pretty Examples.call_1) None; Prompted "Use search" true true]
      ++ Invoked "search" [(str_of "q", JStr (str_of "x"))]
           (Returned (JStr (str_of "3 matches")))
      :: [Printed (MarkdownText (str_of "3 matches")) (Some "Tool Result");
          Prompted "Add this result to the response?" true true;
          Printed (Pretty Examples.call_2) None;
          Prompted "Use edit" true false] ∧
  ∃ pre' c,
    [Printed (Pretty Examples.call_1) None; Prompted "Use search" true true] =
      pre' ++ [Printed (Pretty c) None; Prompted ("Use " +:+ "search") true true] ∧
    tc_name c = "search" ∧ tc_args c = [(str_of "q", JStr (str_of "x"))].
Proof.
  split; [vm_compute; reflexivity |].
  apply (invocation_follows_consent Examples.declines_edit Examples.state Examples.runtime
           [Printed (Pretty Examples.call_1) None; Prompted "Use search" true true]
           [Printed (MarkdownText (str_of "3 matches")) (Some "Tool Result");
            Prompted "Add this result to the response?" true true;
            Printed (Pretty Examples.call_2) None;
            Prompted "Use edit" true false]
           "search" [(str_of "q", JStr (str_of "x"))]
           (Returned (JStr (str_of "3 matches")))).
  vm_compute; reflexivity.
Defined.

(** X8. The operator sees and reviews every text a tool returns: in every
    run, an invocation that returned the text [s] is followed at once by
    the panel "Tool Result" showing [s] and by the review prompt.  An
    invocation that returned anything else is the last event of its run,
    which raises [TypeError]: such a result is neither shown nor
    reviewed. *)
Theorem returned_result_is_reviewed operator state runtime pre post name args v :
  snd (ToolNode.run operator state runtime) =
    pre ++ Invoked name args (Returned v) :: post →
  match v with
  | JStr s =>
      ∃ keep post',
        post = Printed (MarkdownText s) (Some "Tool Result")
                 :: Prompted "Add this result to the response?" true keep :: post'
  | _ =>
      post = [] ∧ fst (ToolNode.run operator state runtime) = Raised TypeError
  end.
Proof.
  intros Htrace.
  destruct (run_trace_shape operator state runtime)
    as [Hnil|(message & done & ending & Hshape & Hwhy)].
  { rewrite Hnil in Htrace. by destruct pre. }
  rewrite Hshape in Htrace |- *. cbn [fst snd] in Htrace |- *.
  apply explained_ending in Hwhy.
  apply invocation_bracketed in Htrace
    as (_ & c & _ & _ & _ & [(s & keep & post' & Hv & ->)|(-> & [(e & He & _)|(w & Hw & ->)])]).
  - injection Hv as ->. by exists keep, post'.
  - discriminate He.
  - injection Hw as <-. destruct Hwhy as (_ & Hno_text & _).
    destruct v; try done. by destruct (Hno_text s).
Qed.

Lemma returned_result_is_reviewed_witness :
  snd (ToolNode.run Examples.keeps_nothing Examples.state Examples.runtime) =
    [Printed (Pretty Examples.call_1) None; Prompted "Use search" true true]
      ++ Invoked "search" [(str_of "q", JStr (str_of "x"))]
           (Returned (JStr (str_of "3 matches")))
      :: [Printed (MarkdownText (str_of "3 matches")) (Some "Tool Result");
          Prompted "Add this result to the response?" true false;
          Printed (Pretty Examples.call_2) None;
          Prompted "Use edit" true true;
          Invoked "edit" [(str_of "path", JStr (str_of "a.py"))]
            (Returned (JStr (str_of "edited a.py")));
          Printed (MarkdownText (str_of "edited a.py")) (Some "Tool Result");
          Prompted "Add this result to the response?" true false] ∧
  (∃ keep post',
     [Printed (MarkdownText (str_of "3 matches")) (Some "Tool Result");
      Prompted "Add this result to the response?" true false;
      Printed (Pretty Examples.call_2) None;
      Prompted "Use edit" true true;
      Invoked "edit" [(str_of "path", JStr (str_of "a.py"))]
        (Returned (JStr (str_of "edited a.py")));
      Printed (MarkdownText (str_of "edited a.py")) (Some "Tool Result");
      Prompted "Add this result to the response?" true false] =
     Printed (MarkdownText (str_of "3 matches")) (Some "Tool Result")
       :: Prompted "Add this result to the response?" true keep :: post') ∧
  snd (ToolNode.run Examples.takes_defaults Examples.state Cases.flag_runtime) =
    [Printed (Pretty Examples.call_1) None; Prompted "Use search" true true;
     Invoked "search" [(str_of "q", JStr (str_of "x"))]
       (Returned (JStr (str_of "3 matches")));
     Printed (MarkdownText (str_of "3 matches")) (Some "Tool Result");
     Prompted "Add this result to the response?" true true;
     Printed (Pretty Examples.call_2) None; Prompted "Use edit" true true]
      ++ Invoked "edit" [(str_of "path", JStr (str_of "a.py"))] (Returned (JBool true))
      :: [] ∧
  fst (ToolNode.run Examples.takes_defaults Examples.state Cases.flag_runtime) =
    Raised TypeError.
Proof.
  split; [vm_compute; reflexivity |].
  split.
  - apply (returned_result_is_reviewed Examples.keeps_nothing Examples.state
             Examples.runtime
             [Printed (Pretty Examples.call_1) None; Prompted "Use search" true true]
             _ "search" [(str_of "q", JStr (str_of "x"))] (JStr (str_of "3 matches"))).
    vm_compute; reflexivity.
  - split; [vm_compute; reflexivity |].
    apply (returned_result_is_reviewed Examples.takes_defaults Examples.state
             Cases.flag_runtime
             [Printed (Pretty Examples.call_1) None; Prompted "Use search" true true;
              Invoked "search" [(str_of "q", JStr (str_of "x"))]
                (Returned (JStr (str_of "3 matches")));
              Printed (MarkdownText (str_of "3 matches")) (Some "Tool Result");
              Prompted "Add this result to the response?" true true;
              Printed (Pretty Examples.call_2) None; Prompted "Use edit" true true]
             [] "edit" [(str_of "path", JStr (str_of "a.py"))] (JBool true)).
    vm_compute; reflexivity.
Defined.
(** ** The patch of a batch that ran to its end *)

Lemma outputs_zip (done : list Processed) :
  map output_of done =
  zip_with
    (λ c (vk : str * bool),
       ToolMessage (json.dumps (if vk.2 then JStr vk.1 else ToolNode.discarded_result))
         (tc_name c) (tc_id c))
    (map p_call done) (zip (map p_result done) (map p_keep done)).
Proof. induction done as [|p done IH]; [reflexivity | simpl; by rewrite <- IH]. Qed.

(** X9. When the node returns a command that is not an abort, with a
    non-empty catalog, every call was invoked and returned a text, every
    result was reviewed, and the patch holds one tool result per call, in
    the order of the calls: under the name and id of its call, the JSON
    text of the returned text if the operator kept it, of the "not
    useful" placeholder if not. *)
Theorem completed_batch_outputs operator state runtime id content tool_calls cmd :
  last (messages state) = Some (AIMessage id content tool_calls) →
  tools (context runtime) ≠ [] →
  fst (ToolNode.run operator state runtime) = Returned cmd →
  upd_constraints (update cmd) = None →
  ∃ (results : list str) (keeps : list bool),
    length results = length tool_calls ∧
    length keeps = length tool_calls ∧
    invocations (snd (ToolNode.run operator state runtime)) =
      zip_with (λ c s, (tc_name c, tc_args c, Returned (JStr s))) tool_calls results ∧
    review_answers (snd (ToolNode.run operator state runtime)) = keeps ∧
    upd_messages (update cmd) =
      zip_with
        (λ c (vk : str * bool),
           ToolMessage (json.dumps (if vk.2 then JStr vk.1 else ToolNode.discarded_result))
             (tc_name c) (tc_id c))
        tool_calls (zip results keeps).
Proof.
  intros Hlast Htools Hret Hnone.
  destruct (run_shape operator state runtime _ _ _ Hlast Htools) as
    (done & ending & rest & Hcalls & Hcompl & Hrun).
  rewrite Hrun in *. cbn [fst snd] in *.
  destruct ending as [|c|c|c e|c v]; try discriminate Hret; injection Hret as <-;
    [| discriminate Hnone].
  rewrite (Hcompl eq_refl), !app_nil_r in Hcalls. subst tool_calls.
  exists (map p_result done), (map p_keep done).
  cbn [update upd_messages ending_events].
  rewrite app_nil_r, invocations_processed, review_answers_processed, !length_map.
  split_and!; try reflexivity; [| apply outputs_zip].
  clear. induction done as [|p done IH]; [reflexivity | simpl; by rewrite IH].
Qed.

Lemma completed_batch_outputs_witness :
  last (messages Examples.state) =
    Some (AIMessage "a1" "" [Examples.call_1; Examples.call_2]) ∧
  tools (context Examples.runtime) ≠ [] ∧
  fst (ToolNode.run Cases.keeps_matches Examples.state Examples.runtime) =
    Returned
      {| goto := "assistant_node";
         update :=
           {| upd_messages :=
                [ToolMessage (json.dumps (JStr (str_of "3 matches"))) "search" "1";
                 ToolMessage (json.dumps ToolNode.discarded_result) "edit" "2"];
              upd_constraints := None |} |} ∧
  ∃ (results : list str) (keeps : list bool),
    length results = 2 ∧
    length keeps = 2 ∧
    invocations (snd (ToolNode.run Cases.keeps_matches Examples.state Examples.runtime)) =
      zip_with (λ c s, (tc_name c, tc_args c, Returned (JStr s)))
        [Examples.call_1; Examples.call_2] results ∧
    review_answers (snd (ToolNode.run Cases.keeps_matches Examples.state Examples.runtime)) =
      keeps ∧
    [ToolMessage (json.dumps (JStr (str_of "3 matches"))) "search" "1";
     ToolMessage (json.dumps ToolNode.discarded_result) "edit" "2"] =
      zip_with
        (λ c (vk : str * bool),
           ToolMessage (json.dumps (if vk.2 then JStr vk.1 else ToolNode.discarded_result))
             (tc_name c) (tc_id c))
        [Examples.call_1; Examples.call_2] (zip results keeps).
Proof.
  split_and!; [reflexivity | discriminate | vm_compute; reflexivity |].
  apply (completed_batch_outputs Cases.keeps_matches Examples.state Examples.runtime
           "a1" "" [Examples.call_1; Examples.call_2]
           {| goto := "assistant_node";
              update :=
                {| upd_messages :=
                     [ToolMessage (json.dumps (JStr (str_of "3 matches"))) "search" "1";
                      ToolMessage (json.dumps ToolNode.discarded_result) "edit" "2"];
                   upd_constraints := None |} |});
    [reflexivity | discriminate | vm_compute; reflexivity | reflexivity].
Defined.

(** ** A latest message that is not the assistant's *)

(** X10. The catalog guard comes first, the read of [tool_calls] second.
    When the latest message is not an assistant message and the catalog is
    not empty, the node raises [AttributeError] for [tool_calls] before it
    prints, asks or invokes anything. *)
Theorem not_assistant_message_raises operator state runtime message :
  last (messages state) = Some message →
  (∀ id content tool_calls, message ≠ AIMessage id content tool_calls) →
  tools (context runtime) ≠ [] →
  ToolNode.run operator state runtime = (Raised (AttributeError "tool_calls"), []).
Proof. apply run_not_assistant. Qed.

Lemma not_assistant_message_raises_witness :
  last (messages Cases.human_state) = Some (HumanMessage "h2" "wait") ∧
  tools (context Examples.runtime) ≠ [] ∧
  ToolNode.run Examples.takes_defaults Cases.human_state Examples.runtime =
    (Raised (AttributeError "tool_calls"), []).
Proof.
  split_and!; [reflexivity | discriminate |].
  apply (not_assistant_message_raises Examples.takes_defaults Cases.human_state
           Examples.runtime (HumanMessage "h2" "wait"));
    [reflexivity | discriminate | discriminate].
Defined.

(** ** Merging a sequence of updates *)

(** X11. Merging updates one after the other with [add_constraints] is
    merging their concatenation: whatever the current value, [None]
    counting as empty, the result is the current constraints followed by
    all incoming ones in the order of arrival, repeated ones included. *)
Theorem add_constraints_folds_to_concat :
  ∀ (A : Type) (current : option (list A)) (updates : list (list A)),
    default [] (foldl (λ acc incoming, Some (add_constraints acc incoming)) current updates)
      = default [] current ++ concat updates ∧
    length (default []
              (foldl (λ acc incoming, Some (add_constraints acc incoming)) current updates))
      = (length (default [] current) + sum_list (map length updates))%nat.
Proof.
  intros A current updates.
  assert (Hfold :
    default [] (foldl (λ acc incoming, Some (add_constraints acc incoming)) current updates)
      = default [] current ++ concat updates).
  { revert current. induction updates as [|u updates IH]; intros current.
    - by rewrite app_nil_r.
    - cbn [foldl concat]. rewrite IH. cbn [default].
      destruct current as [l|]; cbn; [| reflexivity]. by rewrite <- (assoc_L (++)). }
  split; [exact Hfold |].
  rewrite Hfold, length_app. f_equal. clear Hfold.
  induction updates as [|u updates IH]; [reflexivity |].
  simpl. by rewrite length_app, IH.
Qed.

(** X12. Merging updates one after the other with [replace_list] keeps
    the last update only, and the current value when there is none. *)
Theorem replace_list_folds_to_last :
  ∀ (A : Type) (current : option (list A)) (updates : list (list A)),
    foldl (λ acc incoming, Some (replace_list acc incoming)) current updates =
      match last updates with
      | Some incoming => Some incoming
      | None => current
      end.
Proof.
  intros A current updates. revert current.
  induction updates as [|u updates IH]; intros current; [reflexivity |].
  cbn [foldl]. rewrite IH. unfold replace_list.
  destruct updates as [|u' updates]; [reflexivity |].
  change (last (u :: u' :: updates)) with (last (u' :: updates)).
  destruct (last (u' :: updates)) eqn:Hlast; [reflexivity |].
  apply last_None in Hlast. discriminate Hlast.
Qed.

(** ** The patch of an abort, merged into the state *)



(** ** The content of a tool result is printable ASCII *)

Lemma string_app_cons (x : ascii) (a b : string) :
  String x a +:+ b = String x (a +:+ b).
Proof. reflexivity. Qed.

Lemma printable_app (a b : string) :
  printable (a +:+ b) = printable a && printable b.
Proof.
  induction a as [|x a IH]; [reflexivity |].
  rewrite string_app_cons. cbn [printable]. by rewrite IH, andb_assoc.
Qed.

Lemma hex_digit_printable (n : N) :
  printable_char (json.hex_digit (n mod 16)) = true.
Proof.
  assert (Hlt : (n mod 16 < 16)%N) by (by apply N.mod_lt).
  assert (Hall : forallb (λ k, printable_char (json.hex_digit (N.of_nat k))) (seq 0 16) = true)
    by (vm_compute; reflexivity).
  rewrite forallb_forall in Hall.
  generalize dependent (n mod 16)%N. intros m Hlt.
  rewrite <- (N2Nat.id m). apply Hall, in_seq. lia.
Qed.

Lemma hex4_printable (n : N) : printable (json.hex4 n) = true.
Proof.
  unfold json.hex4. cbn [printable].
  by rewrite !hex_digit_printable.
Qed.

Lemma u_escape_printable (n : N) : printable (json.u_escape n) = true.
Proof. unfold json.u_escape. cbn [printable]. by rewrite hex4_printable. Qed.

Lemma escape_char_printable (n : N) : printable (json.escape_char n) = true.
Proof.
  unfold json.escape_char.
  repeat (case_match; [reflexivity |]).
  case_match eqn:Hrange.
  - apply andb_prop in Hrange as [Hlo Hhi].
    apply N.leb_le in Hlo, Hhi.
    cbn [printable]. unfold printable_char.
    rewrite N_ascii_embedding by lia.
    rewrite andb_true_r. apply andb_true_intro. split; by apply N.leb_le.
  - case_match; [apply u_escape_printable |].
    cbv zeta. by rewrite printable_app, !u_escape_printable.
Qed.

Lemma escape_printable (s : str) : printable (json.escape s) = true.
Proof.
  induction s as [|c s IH]; [reflexivity |].
  cbn [json.escape]. by rewrite printable_app, escape_char_printable, IH.
Qed.

Lemma encode_str_printable (s : str) : printable (json.encode_str s) = true.
Proof.
  unfold json.encode_str. by rewrite !printable_app, escape_printable.
Qed.

Lemma output_of_printable (p : Processed) content name call_id :
  output_of p = ToolMessage content name call_id → printable content = true.
Proof.
  intros [= <- _ _]. destruct (p_keep p); [| reflexivity].
  apply encode_str_printable.
Qed.

(** X14. [json.dumps] is called with its defaults, so it escapes what is
    not printable ASCII, characters beyond the basic plane as surrogate
    pairs.  Whatever text a tool returns, whatever its characters, the
    content of every tool result in a returned patch consists of
    characters between space and tilde only. *)
Theorem tool_result_content_is_printable_ascii
    operator state runtime cmd content name call_id :
  fst (ToolNode.run operator state runtime) = Returned cmd →
  ToolMessage content name call_id ∈ upd_messages (update cmd) →
  printable content = true.
Proof.
  intros Hret Hin.
  destruct (last (messages state)) as [message|] eqn:Hlast;
    [| by rewrite (run_no_message _ _ _ Hlast) in Hret].
  destruct (tools (context runtime)) as [|t ts] eqn:Htools.
  { rewrite (run_empty_catalog _ _ _ _ Hlast Htools) in Hret.
    injection Hret as <-. by apply not_elem_of_nil in Hin. }
  assert (Hne : tools (context runtime) ≠ []) by (by rewrite Htools).
  destruct message as [id content' tool_calls|id content'|content' name' call_id'|id];
    try (rewrite (run_not_assistant _ _ _ _ Hlast) in Hret; done).
  destruct (run_shape operator state runtime _ _ _ Hlast Hne) as
    (done & ending & rest & _ & _ & Hrun).
  rewrite Hrun in Hret. cbn [fst] in Hret.
  destruct ending as [|c|c|c e|c v]; try discriminate Hret; injection Hret as <-;
    cbn [update upd_messages] in Hin.
  - apply list_elem_of_fmap_1 in Hin as (p & Hp & _).
    by eapply output_of_printable.
  - by apply list_elem_of_singleton in Hin.
Qed.

Lemma tool_result_content_is_printable_ascii_witness :
  fst (ToolNode.run Examples.takes_defaults Examples.state Cases.unicode_runtime) =
    Returned
      {| goto := "assistant_node";
         update :=
           {| upd_messages :=
                [ToolMessage (json.dumps (JStr [128512; 233; 10; 126]%N)) "search" "1";
                 ToolMessage (json.dumps (JStr (str_of "edited a.py"))) "edit" "2"];
              upd_constraints := None |} |} ∧
  printable (json.dumps (JStr [128512; 233; 10; 126]%N)) = true.
Proof.
  split; [vm_compute; reflexivity |].
  apply (tool_result_content_is_printable_ascii Examples.takes_defaults Examples.state
           Cases.unicode_runtime
           {| goto := "assistant_node";
              update :=
                {| upd_messages :=
                     [ToolMessage (json.dumps (JStr [128512; 233; 10; 126]%N)) "search" "1";
                      ToolMessage (json.dumps (JStr (str_of "edited a.py"))) "edit" "2"];
                   upd_constraints := None |} |}
           (json.dumps (JStr [128512; 233; 10; 126]%N)) "search" "1");
    [vm_compute; reflexivity | left].
Defined.
(** ** What the operator is asked *)

Lemma prompted_processed (done : list Processed) message default answer :
  Prompted message default answer ∈ flat_map processed_events done →
  default = true ∧
  (message = ToolNode.review_prompt ∨
   ∃ p, p ∈ done ∧ message = ToolNode.use_prompt (p_call p) ∧ answer = true).
Proof.
  induction done as [|p done IH]; cbn [flat_map]; intros Hin.
  - by apply not_elem_of_nil in Hin.
  - apply elem_of_app in Hin as [Hin|Hin].
    + unfold processed_events in Hin.
      repeat (apply elem_of_cons in Hin as [Hin|Hin]; [simplify_eq |]).
      * split; [reflexivity | right]. exists p. split_and!; [left | done..].
      * split; [reflexivity | by left].
      * by apply not_elem_of_nil in Hin.
    + destruct (IH Hin) as [-> [->|(q & Hq & -> & ->)]]; split; try reflexivity;
        [by left | right]. exists q. split_and!; [by right | done..].
Qed.

Lemma prompted_ending (ending : Ending) message default answer :
  Prompted message default answer ∈ ending_events ending →
  default = true ∧ ∃ c, pending ending = [c] ∧ message = ToolNode.use_prompt c.
Proof.
  destruct ending as [|c|c|c e|c v]; cbn [ending_events pending]; intros Hin;
    repeat (apply elem_of_cons in Hin as [Hin|Hin]; [simplify_eq |]);
    try (by apply not_elem_of_nil in Hin); split; try reflexivity; by exists c.
Qed.

(** X17. Every question the node puts to the operator has "yes" as its
    default, and is either the review question or "Use <name>" for the
    name of one of the requested calls. *)
Theorem prompts_default_yes_about_requests
    operator state runtime id content tool_calls message default answer :
  last (messages state) = Some (AIMessage id content tool_calls) →
  Prompted message default answer ∈ snd (ToolNode.run operator state runtime) →
  default = true ∧
  (message = "Add this result to the response?" ∨
   ∃ c, c ∈ tool_calls ∧ message = "Use " +:+ tc_name c).
Proof.
  intros Hlast Hin.
  destruct (tools (context runtime)) as [|t ts] eqn:Htools.
  { rewrite (run_empty_catalog _ _ _ _ Hlast Htools) in Hin.
    by apply not_elem_of_nil in Hin. }
  destruct (run_shape operator state runtime _ _ _ Hlast) as
    (done & ending & rest & Hcalls & _ & Hrun); [by rewrite Htools |].
  rewrite Hrun in Hin. cbn [snd] in Hin.
  apply elem_of_app in Hin as [Hin|Hin].
  - apply prompted_processed in Hin as [-> [->|(p & Hp & -> & _)]];
      (split; [reflexivity |]); [by left | right].
    exists (p_call p). split; [| reflexivity].
    rewrite Hcalls. apply elem_of_app. left.
    apply list_elem_of_fmap_2 with (f := p_call) in Hp. exact Hp.
  - apply prompted_ending in Hin as [-> (c & Hc & ->)].
    split; [reflexivity | right]. exists c. split; [| reflexivity].
    by eapply pending_elem_of.
Qed.

Lemma prompts_default_yes_about_requests_witness :
  last (messages Examples.state) =
    Some (AIMessage "a1" "" [Examples.call_1; Examples.call_2]) ∧
  Prompted "Use edit" true false
    ∈ snd (ToolNode.run Examples.declines_edit Examples.state Examples.runtime) ∧
  ("Use edit" = "Add this result to the response?" ∨
   ∃ c, c ∈ [Examples.call_1; Examples.call_2] ∧ "Use edit" = "Use " +:+ tc_name c).
Proof.
  assert (Hin : Prompted "Use edit" true false
                  ∈ snd (ToolNode.run Examples.declines_edit Examples.state
                           Examples.runtime)).
  { apply list_elem_of_lookup. exists 6. vm_compute. reflexivity. }
  split_and!; [reflexivity | exact Hin |].
  apply (prompts_default_yes_about_requests Examples.declines_edit Examples.state
           Examples.runtime "a1" "" [Examples.call_1; Examples.call_2]
           "Use edit" true false);
    [reflexivity | exact Hin].
Defined.

(** ** What the node reads of the state *)

(** X18. The node reads the latest message of the state and nothing else
    of it: two states with the same latest message give the same outcome
    and the same trace, whatever their earlier messages and whatever
    constraints they have accumulated.  A call that an accumulated
    constraint tells to avoid is presented to the operator all the same. *)
Theorem only_latest_message_matters operator state state' runtime :
  last (messages state) = last (messages state') →
  ToolNode.run operator state runtime = ToolNode.run operator state' runtime.
Proof.
  intros Hlast.
  unfold ToolNode.run, ToolNode.__call__, bind, get_last_message.
  by rewrite Hlast.
Qed.

Lemma only_latest_message_matters_witness :
  constraints Examples.state ≠ constraints Cases.constrained_state ∧
  last (messages Examples.state) = last (messages Cases.constrained_state) ∧
  ToolNode.run Examples.declines_edit Examples.state Examples.runtime =
    ToolNode.run Examples.declines_edit Cases.constrained_state Examples.runtime.
Proof.
  split_and!; [discriminate | reflexivity |].
  apply (only_latest_message_matters Examples.declines_edit Examples.state
           Cases.constrained_state Examples.runtime).
  reflexivity.
Defined.
